(** * Weather lookup page: the search bar and the page-level weather fetcher

    A shallow embedding of the two components of the application,

    - [SearchBar] (the search input with debounced suggestions and the
      "use my current location" button), and
    - [Page] (the [Home] component with [fetchWeatherData]),

    together with the small part of the JavaScript runtime they rely on
    (strings, truthiness, [Math.round], timers).

    An event handler is a computation over the component's state that may
    throw and that records what it does to the outside (requests, calls of
    [onSearch], console output).  What an [await] resolves to is an argument
    of the handler: a run of an [async] function is followed from its call
    to its end for each way its requests can settle.  Time is counted in
    whole milliseconds, and a timer's callback runs at its deadline. *)

From Stdlib Require Import List ZArith NArith QArith Qround Bool Lia.
From Stdlib Require Import Ascii String.
Import ListNotations.

(** ** The JavaScript values the components handle *)

Module JS.

(** A JavaScript string is a sequence of UTF-16 code units; [length] counts
    code units, as the [length] property does. *)
Definition jsstring := list N.

(** String literals of the source are written in UTF-8 in this file and
    turned into code units here. *)
Fixpoint utf16_of_utf8 (bs : list N) : jsstring :=
  match bs with
  | [] => []
  | b0 :: r0 =>
    if (b0 <? 0x80)%N then b0 :: utf16_of_utf8 r0
    else if (b0 <? 0xE0)%N then
      match r0 with
      | b1 :: r1 => ((b0 - 0xC0) * 64 + (b1 - 0x80))%N :: utf16_of_utf8 r1
      | _ => []
      end
    else if (b0 <? 0xF0)%N then
      match r0 with
      | b1 :: b2 :: r2 =>
        ((b0 - 0xE0) * 4096 + (b1 - 0x80) * 64 + (b2 - 0x80))%N
          :: utf16_of_utf8 r2
      | _ => []
      end
    else
      match r0 with
      | b1 :: b2 :: b3 :: r3 =>
        let cp := ((b0 - 0xF0) * 262144 + (b1 - 0x80) * 4096
                   + (b2 - 0x80) * 64 + (b3 - 0x80) - 0x10000)%N in
        (0xD800 + cp / 1024)%N :: (0xDC00 + cp mod 1024)%N
          :: utf16_of_utf8 r3
      | _ => []
      end
  end.

Definition js (s : string) : jsstring :=
  utf16_of_utf8 (map N_of_ascii (list_ascii_of_string s)).

(** [WhiteSpace] and [LineTerminator] code points, the ones
    [String.prototype.trim] strips. *)
Definition is_white_space (c : N) : bool :=
  ((0x09 <=? c) && (c <=? 0x0D) || (c =? 0x20) || (c =? 0xA0)
   || (c =? 0x1680) || (0x2000 <=? c) && (c <=? 0x200A)
   || (c =? 0x2028) || (c =? 0x2029) || (c =? 0x202F) || (c =? 0x205F)
   || (c =? 0x3000) || (c =? 0xFEFF))%N.

Fixpoint trimStart (s : jsstring) : jsstring :=
  match s with
  | c :: r => if is_white_space c then trimStart r else s
  | [] => []
  end.

Definition trimEnd (s : jsstring) : jsstring := rev (trimStart (rev s)).

Definition trim (s : jsstring) : jsstring := trimEnd (trimStart s).

(** An optional string property ([city?: string]): [None] is [undefined]. *)
Definition optstring := option jsstring.

(** Truthiness of such a value: [undefined] and the empty string are
    falsy, every other string is truthy. *)
Definition truthy (v : optstring) : bool :=
  match v with
  | Some (_ :: _) => true
  | _ => false
  end.

(** [a || b] *)
Definition or (a b : optstring) : optstring := if truthy a then a else b.

(** [a || ''], whose value is always a string. *)
Definition or_empty (a : optstring) : jsstring :=
  match a with
  | Some s => if truthy a then s else []
  | None => []
  end.

(** A JavaScript number.  A finite double is modelled by the rational it
    denotes; the sign of zero is not tracked. *)
Inductive number :=
| Num (q : Q)
| NaN
| PosInfinity
| NegInfinity.

(** [Math.round]: the nearest integer, ties going up. *)
Definition round_half_up (q : Q) : Z := Qfloor (q + (1 # 2)).

Definition Math_round (n : number) : number :=
  match n with
  | Num q => Num (inject_Z (round_half_up q))
  | _ => n
  end.

(** What a numeric property of a parsed JSON document can hold. *)
Inductive jsval :=
| Undefined
| Null
| Number (n : number).

Definition ToNumber (v : jsval) : number :=
  match v with
  | Undefined => NaN
  | Null => Num 0
  | Number n => n
  end.

Definition truthy_val (v : jsval) : bool :=
  match v with
  | Number (Num q) => negb (Qeq_bool q 0)
  | Number NaN => false
  | Number _ => true
  | _ => false
  end.

(** [v || 0] *)
Definition or_zero (v : jsval) : jsval :=
  if truthy_val v then v else Number (Num 0).

(** The outcome of [fetch] followed by [response.json()]: [fetch] rejects,
    or it resolves to a response with its [ok] flag and a body that
    parses ([Some]) or does not ([None]). *)
Inductive FetchOutcome (A : Type) :=
| NetworkFailure
| Response (ok : bool) (body : option A).
Arguments NetworkFailure {A}.
Arguments Response {A} ok body.

(** What can be thrown or rejected inside the handlers. *)
Inductive Exn :=
| GeolocationPositionError (code : N)
| Error (message : jsstring)
| TypeError
| SyntaxError
| URIError.

(** [encodeURIComponent] throws a [URIError] on a lone surrogate.  The
    percent-encoding itself is not modelled: a request is identified by
    the string that was encoded. *)
Definition is_high_surrogate (c : N) : bool :=
  ((0xD800 <=? c) && (c <=? 0xDBFF))%N.
Definition is_low_surrogate (c : N) : bool :=
  ((0xDC00 <=? c) && (c <=? 0xDFFF))%N.

Fixpoint well_formed (s : jsstring) : bool :=
  match s with
  | [] => true
  | c :: r =>
    if is_high_surrogate c then
      match r with
      | d :: r' => is_low_surrogate d && well_formed r'
      | [] => false
      end
    else if is_low_surrogate c then false
    else well_formed r
  end.

Definition encodeURIComponent (s : jsstring) : Exn + jsstring :=
  if well_formed s then inr s else inl URIError.

End JS.

Import JS.

(** ** Handlers: computations over a world that may throw *)

Module Handler.

Inductive Result (A : Type) :=
| Ok (a : A)
| Throw (e : Exn).
Arguments Ok {A} a.
Arguments Throw {A} e.

Definition M (W A : Type) : Type := W -> Result A * W.

Section Operations.
Context {W : Type}.

Definition ret {A} (a : A) : M W A := fun w => (Ok a, w).

Definition bind {A B} (m : M W A) (k : A -> M W B) : M W B :=
  fun w =>
    match m w with
    | (Ok a, w') => k a w'
    | (Throw e, w') => (Throw e, w')
    end.

Definition throw {A} (e : Exn) : M W A := fun w => (Throw e, w).

(** [try { body } catch (error) { handler }] *)
Definition try_catch {A} (body : M W A) (handler : Exn -> M W A) : M W A :=
  fun w =>
    match body w with
    | (Ok a, w') => (Ok a, w')
    | (Throw e, w') => handler e w'
    end.

(** [try { body } finally { cleanup }] *)
Definition try_finally {A} (body : M W A) (cleanup : M W unit) : M W A :=
  fun w =>
    match body w with
    | (r, w') =>
      match cleanup w' with
      | (Ok _, w'') => (r, w'')
      | (Throw e, w'') => (Throw e, w'')
      end
    end.

(** [await fetch(...)], [if (!response.ok) throw new Error(notOk)] and
    [await response.json()], given how the request settles. *)
Definition settle {A} (notOk : jsstring) (o : FetchOutcome A) : M W A :=
  match o with
  | NetworkFailure => throw TypeError
  | Response ok body =>
    if negb ok then throw (Error notOk)
    else match body with
         | Some data => ret data
         | None => throw SyntaxError
         end
  end.

(** The world a handler leaves behind. *)
Definition exec {A} (m : M W A) (w : W) : W := snd (m w).

End Operations.

Declare Scope js_scope.
Delimit Scope js_scope with js.
Notation "x <- m ;; k" := (bind m (fun x => k))
  (at level 61, m at next level, right associativity) : js_scope.
Notation "m ;; k" := (bind m (fun _ => k))
  (at level 61, right associativity) : js_scope.

End Handler.

Import Handler.
Local Open Scope js_scope.

(** ** The search bar component *)

Module SearchBar.

Record Address := {
  city : optstring;
  town : optstring;
  state : optstring;
  country : optstring
}.

Record Suggestion := {
  place_id : Z;
  display_name : jsstring;
  address : Address
}.

(** The body of a reverse-geocoding response, as far as
    [getCurrentLocation] reads it.  [address] is [None] when the document
    has no such property. *)
Module Reverse.
Record Address := {
  city : optstring;
  town : optstring;
  village : optstring;
  municipality : optstring;
  state : optstring
}.
Record Data := { address : option Address }.
End Reverse.

(** The result of [navigator.geolocation.getCurrentPosition]: the success
    callback with the coordinates, or the error callback with a
    [GeolocationPositionError]. *)
Inductive PositionResult :=
| Position (latitude longitude : number)
| PositionError (code : N).

(** The constants of [GeolocationPositionError]. *)
Definition PERMISSION_DENIED : N := 1.
Definition POSITION_UNAVAILABLE : N := 2.
Definition TIMEOUT : N := 3.

(** The component's state: the five [useState] cells and the
    [searchTimeout] ref, which holds a timer id or [null]. *)
Record State := {
  location : jsstring;
  suggestions : list Suggestion;
  geoError : option jsstring;
  isGeoLoading : bool;
  showSuggestions : bool;
  searchTimeout : option positive
}.

(** What the component does to the outside, in the order it does it.
    [Lookup at_ query] marks a call of [fetchSuggestions query] by the
    debounce timer at time [at_]. *)
Inductive Effect :=
| OnSearch (locationString : jsstring)
| FetchSearch (encodedQuery : jsstring)
| FetchReverse (latitude longitude : number)
| GetCurrentPosition (enableHighAccuracy : bool) (timeout maximumAge : Z)
| ConsoleError (e : Exn)
| Lookup (at_ : Z) (query : jsstring).

(** A pending [setTimeout(() => fetchSuggestions(value), delay)]. *)
Record Timer := {
  timerId : positive;
  deadline : Z;
  value : jsstring
}.

(** The component in its environment: the clock in milliseconds, the
    pending timers, the next timer id and the effects so far. *)
Record World := {
  ui : State;
  now : Z;
  timers : list Timer;
  nextTimerId : positive;
  trace : list Effect
}.

Definition initialState : State :=
  {| location := []; suggestions := []; geoError := None;
     isGeoLoading := false; showSuggestions := false;
     searchTimeout := None |}.

Definition initialWorld : World :=
  {| ui := initialState; now := 0; timers := []; nextTimerId := 1%positive;
     trace := [] |}.

(** *** The handlers are computations over the world *)

Definition M (A : Type) : Type := Handler.M World A.

Definition modify (f : State -> State) : M unit :=
  fun w => (Ok tt, {| ui := f (ui w); now := now w; timers := timers w;
                      nextTimerId := nextTimerId w; trace := trace w |}).

Definition emit (e : Effect) : M unit :=
  fun w => (Ok tt, {| ui := ui w; now := now w; timers := timers w;
                      nextTimerId := nextTimerId w;
                      trace := trace w ++ [e] |}).

Definition get : M State := fun w => (Ok (ui w), w).

Definition setLocation (v : jsstring) : M unit :=
  modify (fun s => {| location := v; suggestions := suggestions s;
                      geoError := geoError s; isGeoLoading := isGeoLoading s;
                      showSuggestions := showSuggestions s;
                      searchTimeout := searchTimeout s |}).

Definition setSuggestions (v : list Suggestion) : M unit :=
  modify (fun s => {| location := location s; suggestions := v;
                      geoError := geoError s; isGeoLoading := isGeoLoading s;
                      showSuggestions := showSuggestions s;
                      searchTimeout := searchTimeout s |}).

Definition setGeoError (v : option jsstring) : M unit :=
  modify (fun s => {| location := location s; suggestions := suggestions s;
                      geoError := v; isGeoLoading := isGeoLoading s;
                      showSuggestions := showSuggestions s;
                      searchTimeout := searchTimeout s |}).

Definition setIsGeoLoading (v : bool) : M unit :=
  modify (fun s => {| location := location s; suggestions := suggestions s;
                      geoError := geoError s; isGeoLoading := v;
                      showSuggestions := showSuggestions s;
                      searchTimeout := searchTimeout s |}).

Definition setShowSuggestions (v : bool) : M unit :=
  modify (fun s => {| location := location s; suggestions := suggestions s;
                      geoError := geoError s; isGeoLoading := isGeoLoading s;
                      showSuggestions := v;
                      searchTimeout := searchTimeout s |}).

Definition setSearchTimeout (v : option positive) : M unit :=
  modify (fun s => {| location := location s; suggestions := suggestions s;
                      geoError := geoError s; isGeoLoading := isGeoLoading s;
                      showSuggestions := showSuggestions s;
                      searchTimeout := v |}).

(** *** Timers *)

(** [setTimeout(() => fetchSuggestions(v), delay)] returns a fresh id. *)
Definition setTimeout (v : jsstring) (delay : Z) : M positive :=
  fun w =>
    let id := nextTimerId w in
    (Ok id,
     {| ui := ui w; now := now w;
        timers := timers w
                  ++ [{| timerId := id; deadline := now w + delay;
                         value := v |}];
        nextTimerId := Pos.succ id; trace := trace w |}).

(** [clearTimeout(id)]: nothing happens when no such timer is pending. *)
Definition clearTimeout (id : positive) : M unit :=
  fun w =>
    (Ok tt,
     {| ui := ui w; now := now w;
        timers := filter (fun t => negb (Pos.eqb (timerId t) id)) (timers w);
        nextTimerId := nextTimerId w; trace := trace w |}).

(** *** [fetchSuggestions] *)

Definition fetchSuggestions_catch (error : Exn) : M unit :=
  emit (ConsoleError error) ;;
  setSuggestions [].

(** Up to the [await fetch(...)]: the result tells whether a request is
    now in flight. *)
Definition fetchSuggestions_request (query : jsstring) : M bool :=
  if (List.length query <? 3)%nat then
    setSuggestions [] ;;
    ret false
  else
    try_catch
      (match encodeURIComponent query with
       | inl e => throw e
       | inr encodedQuery =>
         emit (FetchSearch encodedQuery) ;;
         ret true
       end)
      (fun error => fetchSuggestions_catch error ;; ret false).

(** From the settlement of the request on. *)
Definition fetchSuggestions_response
    (o : FetchOutcome (list Suggestion)) : M unit :=
  try_catch
    (data <- settle (js "Erro ao buscar sugestões") o ;;
     setSuggestions
       (filter (fun item => truthy (or (city (address item))
                                       (town (address item)))) data) ;;
     setShowSuggestions true)
    fetchSuggestions_catch.

(** A whole run of [fetchSuggestions], given how the request it may issue
    settles. *)
Definition fetchSuggestions (query : jsstring)
    (o : FetchOutcome (list Suggestion)) : M unit :=
  inFlight <- fetchSuggestions_request query ;;
  if inFlight : bool then fetchSuggestions_response o else ret tt.

(** *** The input's handlers *)

Definition handleInputChange (v : jsstring) : M unit :=
  setLocation v ;;
  st <- get ;;
  match searchTimeout st with
  | Some id => clearTimeout id
  | None => ret tt
  end ;;
  id <- setTimeout v 300 ;;
  setSearchTimeout (Some id).

Definition locationString (city state : jsstring) : jsstring :=
  city ++ js ", " ++ state ++ js ", Brasil".

Definition handleSuggestionClick (suggestion : Suggestion) : M unit :=
  let city := or_empty (or (city (address suggestion))
                           (town (address suggestion))) in
  let state := or_empty (state (address suggestion)) in
  let locationString := locationString city state in
  setLocation locationString ;;
  setShowSuggestions false ;;
  emit (OnSearch locationString).

Definition handleSubmit : M unit :=
  st <- get ;;
  match trim (location st) with
  | _ :: _ => emit (OnSearch (location st))
  | [] => ret tt
  end.

(** *** [getCurrentLocation] *)

Definition getCurrentPosition (p : PositionResult) : M (number * number) :=
  emit (GetCurrentPosition true 5000 0) ;;
  match p with
  | Position latitude longitude => ret (latitude, longitude)
  | PositionError code => throw (GeolocationPositionError code)
  end.

Definition getCurrentLocation_catch (error : Exn) : M unit :=
  match error with
  | GeolocationPositionError code =>
    if (code =? PERMISSION_DENIED)%N then
      setGeoError (Some (js "Permissão de localização negada"))
    else if (code =? POSITION_UNAVAILABLE)%N then
      setGeoError (Some (js "Informações de localização indisponíveis"))
    else if (code =? TIMEOUT)%N then
      setGeoError (Some (js "Tempo de requisição de localização expirou"))
    else
      setGeoError (Some (js "Erro ao obter localização"))
  | _ => setGeoError (Some (js "Erro ao determinar sua localização"))
  end.

(** A run of [getCurrentLocation], given whether [navigator.geolocation]
    exists, what the position request answers and how the
    reverse-geocoding request settles. *)
Definition getCurrentLocation (hasGeolocation : bool) (p : PositionResult)
    (o : FetchOutcome Reverse.Data) : M unit :=
  setGeoError None ;;
  setIsGeoLoading true ;;
  if negb hasGeolocation then
    setGeoError (Some (js "Seu navegador não suporta geolocalização")) ;;
    setIsGeoLoading false
  else
    try_finally
      (try_catch
         (position <- getCurrentPosition p ;;
          let '(latitude, longitude) := position in
          emit (FetchReverse latitude longitude) ;;
          data <- settle (js "Erro ao buscar localização") o ;;
          match Reverse.address data with
          | None => throw TypeError
          | Some a =>
            let city := or (or (or (Reverse.city a) (Reverse.town a))
                               (Reverse.village a))
                           (Reverse.municipality a) in
            let state := Reverse.state a in
            if truthy city && truthy state then
              let locationString :=
                locationString (or_empty city) (or_empty state) in
              setLocation locationString ;;
              emit (OnSearch locationString)
            else
              throw (Error (js "Não foi possível determinar sua localização"))
          end)
         getCurrentLocation_catch)
      (setIsGeoLoading false).

(** *** The suggestion panel *)

(** The buttons of the panel, one slot per suggestion: [None] where the
    [map] callback returns [null].  The panel is rendered only when
    [showSuggestions && suggestions.length > 0]. *)
Definition suggestionButton (suggestion : Suggestion) : option Suggestion :=
  let city := or_empty (or (city (address suggestion))
                           (town (address suggestion))) in
  let state := or_empty (state (address suggestion)) in
  match city, state with
  | _ :: _, _ :: _ => Some suggestion
  | _, _ => None
  end.

Definition suggestionPanel (st : State) : list (option Suggestion) :=
  if showSuggestions st && (0 <? List.length (suggestions st))%nat
  then map suggestionButton (suggestions st)
  else [].

(** A click on the [i]-th slot of a mounted panel.  The panel sits inside
    [<AnimatePresence>] and has an [exit] animation: when it stops being
    rendered, the panel as it was last rendered stays mounted while it
    leaves, and its buttons still call [handleSuggestionClick].  So the
    panel that is clicked is the one rendered from [rendered], which is the
    component's state now or its state at an earlier render. *)
Definition clickSuggestion (rendered : State) (i : nat) : M unit :=
  match nth_error (suggestionPanel rendered) i with
  | Some (Some suggestion) => handleSuggestionClick suggestion
  | _ => ret tt
  end.

(** *** The passing of time *)

(** The due timers run in the order of their deadlines, and in the order
    they were set among equal deadlines. *)
Fixpoint insertTimer (t : Timer) (l : list Timer) : list Timer :=
  match l with
  | [] => [t]
  | u :: r =>
    if (deadline t <? deadline u)%Z then t :: l else u :: insertTimer t r
  end.

Definition sortTimers (l : list Timer) : list Timer :=
  fold_right insertTimer [] (rev l).

Definition setNow (t : Z) : M unit :=
  fun w => (Ok tt, {| ui := ui w; now := t; timers := timers w;
                      nextTimerId := nextTimerId w; trace := trace w |}).

Definition setTimers (l : list Timer) : M unit :=
  fun w => (Ok tt, {| ui := ui w; now := now w; timers := l;
                      nextTimerId := nextTimerId w; trace := trace w |}).

(** A timer's callback runs at its deadline: the clock moves there, and
    [fetchSuggestions(value)] runs up to its [await]. *)
Definition fireTimer (t : Timer) : M unit :=
  fun w =>
    (setNow (Z.max (now w) (deadline t)) ;;
     emit (Lookup (Z.max (now w) (deadline t)) (value t)) ;;
     fetchSuggestions_request (value t) ;;
     ret tt) w.

Fixpoint fireTimers (l : list Timer) : M unit :=
  match l with
  | [] => ret tt
  | t :: r => fireTimer t ;; fireTimers r
  end.

(** Time passes until [t]: the timers due by then run and leave the
    pending list (a callback sets or clears no timer). *)
Definition runUntil (t : Z) : M unit :=
  fun w =>
    (setTimers (filter (fun u => negb (deadline u <=? t)%Z) (timers w)) ;;
     fireTimers (sortTimers (filter (fun u => (deadline u <=? t)%Z)
                                    (timers w))) ;;
     setNow (Z.max (now w) t)) w.

Definition wait (ms : Z) : M unit :=
  fun w => runUntil (now w + ms) w.

(** A burst of input-change events: each entry is the time since the
    previous event and the new text of the input. *)
Definition typeAfter (k : Z * jsstring) : M unit :=
  wait (fst k) ;;
  handleInputChange (snd k).

Fixpoint typeBurst (ks : list (Z * jsstring)) : M unit :=
  match ks with
  | [] => ret tt
  | k :: r => typeAfter k ;; typeBurst r
  end.

(** When and with what text the last event of a burst happens, the first
    event being at time [t] with text [v]. *)
Definition burstEnd (t : Z) (v : jsstring) (ks : list (Z * jsstring))
  : Z * jsstring :=
  fold_left (fun a k => (fst a + fst k, snd k)%Z) ks (t, v).

(** What the synchronous part of [fetchSuggestions query] shows to the
    outside. *)
Definition requestEffects (query : jsstring) : list Effect :=
  if (List.length query <? 3)%nat then []
  else match encodeURIComponent query with
       | inl e => [ConsoleError e]
       | inr encodedQuery => [FetchSearch encodedQuery]
       end.

Definition isLookup (e : Effect) : bool :=
  match e with Lookup _ _ => true | _ => false end.

Definition isFetchSearch (e : Effect) : bool :=
  match e with FetchSearch _ => true | _ => false end.

Definition isOnSearch (e : Effect) : bool :=
  match e with OnSearch _ => true | _ => false end.

(** Every pending timer is the one [searchTimeout.current] names. *)
Definition timers_ok (w : World) : Prop :=
  Forall (fun t => searchTimeout (ui w) = Some (timerId t)) (timers w).

(** Exactly one timer is pending: the one [searchTimeout.current] names,
    due at [d] for the text [v]. *)
Definition pending (w : World) (d : Z) (v : jsstring) : Prop :=
  exists id,
    timers w = [{| timerId := id; deadline := d; value := v |}]
    /\ searchTimeout (ui w) = Some id.

(** *** The other listeners of the component *)

(** The [mousedown] listener of the document.  [attached] tells whether
    [suggestionsRef.current] is set, [inside] whether it contains the
    target of the event. *)
Definition handleClickOutside (attached inside : bool) : M unit :=
  if attached && negb inside then setShowSuggestions false else ret tt.

(** [onFocus] of the input:
    [location.length >= 3 && setShowSuggestions(true)]. *)
Definition handleFocus : M unit :=
  st <- get ;;
  if (3 <=? List.length (location st))%nat then setShowSuggestions true
  else ret tt.

(** *** The component as a machine *)

(** What can happen to the mounted component: the user's actions, the
    passing of time, and the settlement of a suggestion request.  A click
    on a suggestion is a click on a slot of the panel as rendered now
    ([None]) or of a panel rendered earlier that is still leaving
    ([Some rendered]); which earlier panels are still mounted depends on the
    animation and is not tracked: every one is allowed. *)
Inductive Event :=
| InputChange (v : jsstring)
| Elapse (ms : Z)
| SuggestionsSettle (o : FetchOutcome (list Suggestion))
| SuggestionClick (leaving : option State) (i : nat)
| Submit
| MouseDown (inside : bool)
| Focus
| Geolocate (hasGeolocation : bool) (p : PositionResult)
            (o : FetchOutcome Reverse.Data).

Definition step (e : Event) : M unit :=
  match e with
  | InputChange v => handleInputChange v
  | Elapse ms => wait ms
  | SuggestionsSettle o => fetchSuggestions_response o
  | SuggestionClick leaving i =>
    st <- get ;;
    clickSuggestion (match leaving with
                     | Some rendered => rendered
                     | None => st
                     end) i
  | Submit => handleSubmit
  | MouseDown inside => handleClickOutside true inside
  | Focus => handleFocus
  | Geolocate hasGeolocation p o => getCurrentLocation hasGeolocation p o
  end.

Fixpoint steps (es : list Event) : M unit :=
  match es with
  | [] => ret tt
  | e :: r => step e ;; steps r
  end.

Definition isInputChange (e : Event) : bool :=
  match e with InputChange _ => true | _ => false end.

Definition isConsoleError (e : Effect) : bool :=
  match e with ConsoleError _ => true | _ => false end.

(** How many lookups have run and how many suggestion requests were made. *)
Definition lookupsOf (w : World) : nat :=
  List.length (filter isLookup (trace w)).

Definition requestsOf (w : World) : nat :=
  List.length (filter isFetchSearch (trace w)).

(** At most one timer is pending, it is the one [searchTimeout.current]
    names, the lookups run or pending are at most [k], and each request
    comes from a lookup. *)
Definition bounded (k : nat) (w : World) : Prop :=
  timers_ok w
  /\ (List.length (timers w) <= 1)%nat
  /\ (lookupsOf w + List.length (timers w) <= k)%nat
  /\ (requestsOf w <= lookupsOf w)%nat.

(** A step that leaves the timers alone and neither looks up nor requests
    suggestions. *)
Definition quiet (w w' : World) : Prop :=
  timers w' = timers w
  /\ searchTimeout (ui w') = searchTimeout (ui w)
  /\ exists new,
      trace w' = trace w ++ new
      /\ filter isLookup new = []
      /\ filter isFetchSearch new = [].

End SearchBar.

(** ** The page: [Home] and [fetchWeatherData] *)

Module Page.

Module HourlyForecast.
Record t := {
  datetime : optstring;
  temp : number;
  conditions : optstring
}.
End HourlyForecast.

Module WeatherData.
Record t := {
  location : optstring;
  temperature : number;
  windSpeed : number;
  precipitation : number;
  humidity : number;
  conditions : optstring;
  hourlyForecast : list HourlyForecast.t
}.
End WeatherData.

(** The parsed body of the weather provider's response, as far as
    [fetchWeatherData] reads it.  A property the document lacks is
    [None] (or [Undefined] for a numeric one). *)
Module Raw.
Record Hour := {
  datetime : optstring;
  temp : jsval;
  conditions : optstring
}.
Record Day := { hours : option (list Hour) }.
Record CurrentConditions := {
  cc_temp : jsval;
  windspeed : jsval;
  precipprob : jsval;
  humidity : jsval;
  cc_conditions : optstring
}.
Record Data := {
  resolvedAddress : optstring;
  currentConditions : option CurrentConditions;
  days : option (list Day)
}.
End Raw.

Record State := {
  weather : option WeatherData.t;
  loading : bool;
  error : option jsstring
}.

Inductive Effect :=
| FetchWeather (encodedLocation : jsstring)
| ConsoleError (e : Exn).

Record World := {
  ui : State;
  trace : list Effect
}.

Definition initialState : State :=
  {| weather := None; loading := false; error := None |}.

Definition M (A : Type) : Type := Handler.M World A.

Definition modify (f : State -> State) : M unit :=
  fun w => (Ok tt, {| ui := f (ui w); trace := trace w |}).

Definition emit (e : Effect) : M unit :=
  fun w => (Ok tt, {| ui := ui w; trace := trace w ++ [e] |}).

Definition setWeather (v : option WeatherData.t) : M unit :=
  modify (fun s => {| weather := v; loading := loading s;
                      error := error s |}).

Definition setLoading (v : bool) : M unit :=
  modify (fun s => {| weather := weather s; loading := v;
                      error := error s |}).

Definition setError (v : option jsstring) : M unit :=
  modify (fun s => {| weather := weather s; loading := loading s;
                      error := v |}).

(** The callback of [data.days[0].hours.map]. *)
Definition hourlyOf (hour : Raw.Hour) : HourlyForecast.t :=
  {| HourlyForecast.datetime := Raw.datetime hour;
     HourlyForecast.temp := Math_round (ToNumber (Raw.temp hour));
     HourlyForecast.conditions := Raw.conditions hour |}.

(** The object literal passed to [setWeather], given the objects
    [data.currentConditions] and [data.days[0].hours] it reads from. *)
Definition snapshot (data : Raw.Data) (cc : Raw.CurrentConditions)
    (hours : list Raw.Hour) : WeatherData.t :=
  {| WeatherData.location := Raw.resolvedAddress data;
     WeatherData.temperature := Math_round (ToNumber (Raw.cc_temp cc));
     WeatherData.windSpeed := Math_round (ToNumber (Raw.windspeed cc));
     WeatherData.precipitation :=
       Math_round (ToNumber (or_zero (Raw.precipprob cc)));
     WeatherData.humidity :=
       Math_round (ToNumber (or_zero (Raw.humidity cc)));
     WeatherData.conditions := Raw.cc_conditions cc;
     WeatherData.hourlyForecast := map hourlyOf hours |}.

(** Evaluating it: reading a property of [undefined] throws a
    [TypeError]. *)
Definition snapshotOf (data : Raw.Data) : M WeatherData.t :=
  match Raw.currentConditions data with
  | None => throw TypeError
  | Some cc =>
    match Raw.days data with
    | Some ({| Raw.hours := Some hours |} :: _) =>
      ret (snapshot data cc hours)
    | _ => throw TypeError
    end
  end.

(** A run of [fetchWeatherData], given how its request settles. *)
Definition fetchWeatherData (location : jsstring)
    (o : FetchOutcome Raw.Data) : M unit :=
  setLoading true ;;
  setError None ;;
  try_finally
    (try_catch
       (match encodeURIComponent location with
        | inl e => throw e
        | inr encodedLocation =>
          emit (FetchWeather encodedLocation) ;;
          data <- settle (js "Localização não encontrada") o ;;
          snapshot <- snapshotOf data ;;
          setWeather (Some snapshot)
        end)
       (fun error =>
          setError (Some (js "Erro ao buscar dados meteorológicos")) ;;
          emit (ConsoleError error)))
    (setLoading false).

(** *** [fetchWeatherData] around its [await] *)

Definition fetchWeatherData_catch (error : Exn) : M unit :=
  setError (Some (js "Erro ao buscar dados meteorológicos")) ;;
  emit (ConsoleError error).

(** Up to the [await fetch(...)]: the result tells whether a request is
    now in flight. *)
Definition fetchWeatherData_request (location : jsstring) : M bool :=
  setLoading true ;;
  setError None ;;
  match encodeURIComponent location with
  | inl e =>
    try_finally (try_catch (throw e) fetchWeatherData_catch)
                (setLoading false) ;;
    ret false
  | inr encodedLocation =>
    emit (FetchWeather encodedLocation) ;;
    ret true
  end.

(** From the settlement of the request on. *)
Definition fetchWeatherData_response (o : FetchOutcome Raw.Data) : M unit :=
  try_finally
    (try_catch
       (data <- settle (js "Localização não encontrada") o ;;
        snapshot <- snapshotOf data ;;
        setWeather (Some snapshot))
       fetchWeatherData_catch)
    (setLoading false).

Definition isFetchWeather (e : Effect) : bool :=
  match e with FetchWeather _ => true | _ => false end.

(** *** What the page shows *)

(** [datetime.split(':')[0]]: the text before the first colon, or all of
    it when there is none. *)
Fixpoint firstField (s : jsstring) : jsstring :=
  match s with
  | [] => []
  | c :: r => if (c =? 58)%N then [] else c :: firstField r
  end.

Definition formatHour (datetime : jsstring) : jsstring :=
  firstField datetime ++ js ":00".

(** The hour labels of the forecast, [formatHour(hour.datetime)] for each
    entry in turn: [datetime.split] throws a [TypeError] when an entry has
    no [datetime]. *)
Fixpoint hourLabels (hours : list HourlyForecast.t)
  : Result (list jsstring) :=
  match hours with
  | [] => Ok []
  | hour :: r =>
    match HourlyForecast.datetime hour with
    | None => Throw TypeError
    | Some datetime =>
      match hourLabels r with
      | Ok labels => Ok (formatHour datetime :: labels)
      | Throw e => Throw e
      end
    end
  end.

(** The three conditional blocks under the search bar: [loading && ...],
    [error && !loading && ...] and [weather && !loading && !error && ...].
    The weather block shows the snapshot with the hour labels of its
    forecast; when a label cannot be computed the render throws. *)
Inductive View :=
| LoaderView
| ErrorView (message : jsstring)
| WeatherView (snapshot : WeatherData.t) (labels : list jsstring).

Definition views (st : State) : Result (list View) :=
  let loader := if loading st then [LoaderView] else [] in
  let failure :=
      match error st with
      | Some (c :: m) => if negb (loading st) then [ErrorView (c :: m)] else []
      | _ => []
      end in
  match weather st with
  | Some snapshot =>
    if negb (loading st) && negb (truthy (error st))
    then match hourLabels (WeatherData.hourlyForecast snapshot) with
         | Ok labels => Ok (loader ++ failure ++ [WeatherView snapshot labels])
         | Throw e => Throw e
         end
    else Ok (loader ++ failure)
  | None => Ok (loader ++ failure)
  end.

End Page.

(** ** The page with its search bar: [<SearchBar onSearch={fetchWeatherData} />] *)

Module App.

(** The page runs [fetchWeatherData] for each [onSearch] of the search
    bar, in order; [net] tells how the request for a location settles. *)
Fixpoint onSearch (effects : list SearchBar.Effect)
    (net : jsstring -> FetchOutcome Page.Raw.Data) : Page.M unit :=
  match effects with
  | [] => ret tt
  | SearchBar.OnSearch location :: r =>
    Page.fetchWeatherData location (net location) ;;
    onSearch r net
  | _ :: r => onSearch r net
  end.

End App.

(** ** What the spec's words mean *)

Module Spec.

(** "First non-empty wins": the first of the candidates that is a
    non-empty string. *)
Fixpoint firstNonEmpty (l : list optstring) : option jsstring :=
  match l with
  | [] => None
  | Some (c :: s) :: _ => Some (c :: s)
  | _ :: r => firstNonEmpty r
  end.

(** A non-empty string, if the property holds one. *)
Definition nonEmpty (v : optstring) : option jsstring :=
  firstNonEmpty [v].

(** The messages of the geolocation flow. *)
Definition permissionDenied := js "Permissão de localização negada".
Definition positionUnavailable :=
  js "Informações de localização indisponíveis".
Definition timedOut := js "Tempo de requisição de localização expirou".
Definition otherPlatformError := js "Erro ao obter localização".
Definition platformMessages : list jsstring :=
  [permissionDenied; positionUnavailable; timedOut; otherPlatformError].
Definition errorDetermining := js "Erro ao determinar sua localização".
Definition couldNotDetermine :=
  js "Não foi possível determinar sua localização".
Definition notSupported := js "Seu navegador não suporta geolocalização".

Definition weatherError := js "Erro ao buscar dados meteorológicos".

(** What a handler added to the effects, and the location strings it
    passed to [onSearch]. *)
Definition added (w w' : SearchBar.World) : list SearchBar.Effect :=
  skipn (List.length (SearchBar.trace w)) (SearchBar.trace w').

Definition emitted (w w' : SearchBar.World) : list SearchBar.Effect :=
  filter SearchBar.isOnSearch (added w w').

End Spec.

(** ** Concrete inputs *)

Module Examples.

Definition curitiba : SearchBar.Suggestion :=
  {| SearchBar.place_id := 298473;
     SearchBar.display_name := js "Curitiba, Paraná, Brasil";
     SearchBar.address :=
       {| SearchBar.city := Some (js "Curitiba");
          SearchBar.town := None;
          SearchBar.state := Some (js "Paraná");
          SearchBar.country := Some (js "Brasil") |} |}.

(** A result with a city and no state: it has no button in the panel. *)
Definition cityOnly : SearchBar.Suggestion :=
  {| SearchBar.place_id := 7;
     SearchBar.display_name := js "Lapa";
     SearchBar.address :=
       {| SearchBar.city := Some (js "Lapa");
          SearchBar.town := None;
          SearchBar.state := None;
          SearchBar.country := Some (js "Brasil") |} |}.

Definition lapa : SearchBar.Reverse.Address :=
  {| SearchBar.Reverse.city := None;
     SearchBar.Reverse.town := Some (js "Lapa");
     SearchBar.Reverse.village := None;
     SearchBar.Reverse.municipality := None;
     SearchBar.Reverse.state := Some (js "Paraná") |}.

Definition noState : SearchBar.Reverse.Address :=
  {| SearchBar.Reverse.city := Some (js "Lapa");
     SearchBar.Reverse.town := None;
     SearchBar.Reverse.village := None;
     SearchBar.Reverse.municipality := None;
     SearchBar.Reverse.state := None |}.

Definition reverseOf (a : SearchBar.Reverse.Address)
  : FetchOutcome SearchBar.Reverse.Data :=
  Response true (Some {| SearchBar.Reverse.address := Some a |}).

Definition somewhere : SearchBar.PositionResult :=
  SearchBar.Position (Num (-2543 # 100)) (Num (-4927 # 100)).

(** The search bar with an open panel of two results. *)
Definition openPanel : SearchBar.World :=
  {| SearchBar.ui :=
       {| SearchBar.location := js "Cur";
          SearchBar.suggestions := [curitiba; cityOnly];
          SearchBar.geoError := None;
          SearchBar.isGeoLoading := false;
          SearchBar.showSuggestions := true;
          SearchBar.searchTimeout := Some 1%positive |};
     SearchBar.now := 1000;
     SearchBar.timers := [];
     SearchBar.nextTimerId := 2%positive;
     SearchBar.trace := [] |}.

(** A first day with 25 hourly entries. *)
Definition hourAt (t : Z) : Page.Raw.Hour :=
  {| Page.Raw.datetime := Some (js "00:00:00");
     Page.Raw.temp := Number (Num (t # 2));
     Page.Raw.conditions := Some (js "Limpo") |}.

Definition longDay : Page.Raw.Data :=
  {| Page.Raw.resolvedAddress := Some (js "Curitiba, PR, Brasil");
     Page.Raw.currentConditions :=
       Some {| Page.Raw.cc_temp := Number (Num (437 # 20));
               Page.Raw.windspeed := Number (Num (15 # 2));
               Page.Raw.precipprob := Undefined;
               Page.Raw.humidity := Number (Num (6449 # 100));
               Page.Raw.cc_conditions := Some (js "Limpo") |};
     Page.Raw.days :=
       Some [{| Page.Raw.hours := Some (map (fun n => hourAt (Z.of_nat n)) (seq 30 25)) |}] |}.

(** A response whose only hourly entry has no [datetime]. *)
Definition undatedHour : Page.Raw.Data :=
  {| Page.Raw.resolvedAddress := Some (js "Lapa, PR, Brasil");
     Page.Raw.currentConditions :=
       Some {| Page.Raw.cc_temp := Number (Num 19);
               Page.Raw.windspeed := Number (Num 4);
               Page.Raw.precipprob := Number (Num 10);
               Page.Raw.humidity := Number (Num 70);
               Page.Raw.cc_conditions := Some (js "Nublado") |};
     Page.Raw.days :=
       Some [{| Page.Raw.hours :=
                  Some [{| Page.Raw.datetime := None;
                           Page.Raw.temp := Number (Num 19);
                           Page.Raw.conditions := Some (js "Nublado") |}]
             |}] |}.

Definition emptyPage : Page.World :=
  {| Page.ui := Page.initialState; Page.trace := [] |}.

End Examples.

(** * Properties *)

Import SearchBar.

(** ** Running handlers *)

Ltac run :=
  unfold exec, getCurrentLocation, getCurrentLocation_catch,
    getCurrentPosition, handleSuggestionClick, handleSubmit, clickSuggestion,
    fetchSuggestions, fetchSuggestions_request, fetchSuggestions_response,
    fetchSuggestions_catch, settle, try_finally, try_catch, bind, ret, throw,
    setLocation, setSuggestions, setGeoError, setIsGeoLoading,
    setShowSuggestions, setSearchTimeout, modify, emit, get in *;
  cbn [fst snd ui trace now timers nextTimerId location suggestions geoError
       isGeoLoading showSuggestions searchTimeout negb] in *.

(** Worlds are taken apart first, so that each projection of an updated
    record reduces at once. *)
Ltac run_on w :=
  destruct w as [[? ? ? ? ? ?] ? ? ? ?]; run.

(** All the ways a run of [getCurrentLocation] can go. *)
Ltac geo_cases p o w :=
  destruct p as [? ?|?], o as [|[|] [[[?|]]|]]; run_on w;
  cbn [Reverse.address];
  repeat match goal with
         | |- context [if ?b then _ else _] => destruct b eqn:?; run
         end.

(** Two closed strings are compared by evaluating them. *)
Ltac same := vm_compute; reflexivity.

Example js_parana : js "Paraná" = [80; 97; 114; 97; 110; 225]%N.
Proof. reflexivity. Qed.

Example trim_example : trim (js "  ab ") = js "ab".
Proof. reflexivity. Qed.

Example round_examples :
  Math_round (Num (5 # 2)) = Num 3 /\ Math_round (Num (-5 # 2)) = Num (-2)
  /\ Math_round (Num (23 # 10)) = Num 2.
Proof. repeat split. Qed.

(** The [||] chain of the source picks the first non-empty candidate. *)
Lemma or_firstNonEmpty (a b : optstring) :
  Spec.firstNonEmpty [or a b] = Spec.firstNonEmpty [a; b].
Proof. destruct a as [[|c s]|], b as [[|d t]|]; reflexivity. Qed.

Lemma or_chain_firstNonEmpty (a b c d : optstring) :
  Spec.nonEmpty (or (or (or a b) c) d) = Spec.firstNonEmpty [a; b; c; d].
Proof.
  destruct a as [[|? ?]|], b as [[|? ?]|], c as [[|? ?]|], d as [[|? ?]|];
    reflexivity.
Qed.

Lemma truthy_spec (v : optstring) :
  truthy v = match Spec.nonEmpty v with Some _ => true | None => false end.
Proof. destruct v as [[|c s]|]; reflexivity. Qed.

Lemma nonEmpty_or_empty (v : optstring) (s : jsstring) :
  Spec.nonEmpty v = Some s -> or_empty v = s /\ s <> [].
Proof.
  destruct v as [[|c t]|]; cbn; intros H; inversion H; subst.
  split; [reflexivity | discriminate].
Qed.

(** ** The geolocation flow *)

(** What a run does on a response that carries an address. *)
Lemma getCurrentLocation_with_address
    (a : Reverse.Address) (latitude longitude : number) (w : World) :
    let w' := exec (getCurrentLocation true (Position latitude longitude)
                      (Response true (Some {| Reverse.address := Some a |})))
                   w in
    match Spec.firstNonEmpty [Reverse.city a; Reverse.town a;
                              Reverse.village a; Reverse.municipality a],
          Spec.nonEmpty (Reverse.state a) with
    | Some city, Some state =>
      location (ui w') = locationString city state
      /\ trace w' = trace w ++ [GetCurrentPosition true 5000 0;
                                FetchReverse latitude longitude;
                                OnSearch (locationString city state)]
      /\ geoError (ui w') = None
    | _, _ =>
      location (ui w') = location (ui w)
      /\ trace w' = trace w ++ [GetCurrentPosition true 5000 0;
                                FetchReverse latitude longitude]
      /\ geoError (ui w') = Some Spec.errorDetermining
    end.
Proof.
  intros w'. subst w'. rewrite <- or_chain_firstNonEmpty.
  run_on w. cbn [Reverse.address].
  set (c := or (or (or (Reverse.city a) (Reverse.town a))
                   (Reverse.village a)) (Reverse.municipality a)).
  rewrite (truthy_spec c), (truthy_spec (Reverse.state a)).
  destruct (Spec.nonEmpty c) as [city|] eqn:Ec;
    [destruct (Spec.nonEmpty (Reverse.state a)) as [state|] eqn:Es|];
    cbn.
  - apply nonEmpty_or_empty in Ec, Es.
    destruct Ec as [-> _], Es as [-> _].
    rewrite <- !app_assoc. repeat split.
  - rewrite <- !app_assoc. split; [|split]; [reflexivity..|same].
  - rewrite <- !app_assoc. destruct (Spec.nonEmpty (Reverse.state a));
      (split; [|split]; [reflexivity..|same]).
Qed.

(** Every run ends without an exception and with [isGeoLoading] false. *)
Lemma getCurrentLocation_not_busy
    (hasGeolocation : bool) (p : PositionResult)
    (o : FetchOutcome Reverse.Data) (w : World) :
  isGeoLoading (ui (exec (getCurrentLocation hasGeolocation p o) w)) = false
  /\ fst (getCurrentLocation hasGeolocation p o w) = Ok tt.
Proof.
  destruct hasGeolocation; [|run_on w; split; reflexivity].
  geo_cases p o w; split; reflexivity.
Qed.

(** C7. In the geolocation flow, for every reverse-geocoding response that
    carries an address, the city is the first non-empty one of [city],
    [town], [village], [municipality], in this order, and the state is the
    [state] property itself: when both are non-empty the location string
    built from them is put in the input and passed to [onSearch].  In
    particular an address with a town, no city and a state gives the location
    string built from the town. *)
Theorem geolocation_city_fallback :
  forall (a : Reverse.Address) (latitude longitude : number) (w : World),
    let w' := exec (getCurrentLocation true (Position latitude longitude)
                      (Response true (Some {| Reverse.address := Some a |})))
                   w in
    match Spec.firstNonEmpty [Reverse.city a; Reverse.town a;
                              Reverse.village a; Reverse.municipality a],
          Spec.nonEmpty (Reverse.state a) with
    | Some city, Some state =>
      location (ui w') = locationString city state
      /\ trace w' = trace w ++ [GetCurrentPosition true 5000 0;
                                FetchReverse latitude longitude;
                                OnSearch (locationString city state)]
      /\ geoError (ui w') = None
    | _, _ =>
      location (ui w') = location (ui w)
      /\ trace w' = trace w ++ [GetCurrentPosition true 5000 0;
                                FetchReverse latitude longitude]
      /\ geoError (ui w') = Some Spec.errorDetermining
    end
    /\ (forall town state,
           Spec.nonEmpty (Reverse.city a) = None ->
           Spec.nonEmpty (Reverse.town a) = Some town ->
           Spec.nonEmpty (Reverse.state a) = Some state ->
           location (ui w') = locationString town state
           /\ In (OnSearch (locationString town state)) (trace w')).
Proof.
  intros a latitude longitude w w'.
  pose proof (getCurrentLocation_with_address a latitude longitude w) as G.
  cbv zeta in G. fold w' in G.
  split; [exact G|].
  intros town state Hc Ht Hs.
  assert (F : Spec.firstNonEmpty [Reverse.city a; Reverse.town a;
                Reverse.village a; Reverse.municipality a] = Some town).
  { destruct (Reverse.city a) as [[|? ?]|]; try discriminate;
      destruct (Reverse.town a) as [[|? ?]|]; try discriminate;
      exact Ht. }
  rewrite F, Hs in G. destruct G as (Hl & Htr & _).
  split; [exact Hl|]. rewrite Htr. apply in_or_app. right. cbn. auto.
Qed.

Lemma platformMessages_NoDup : NoDup Spec.platformMessages.
Proof.
  unfold Spec.platformMessages.
  repeat constructor; cbn [In]; intros H;
    repeat (destruct H as [H|H]; [vm_compute in H; discriminate H|]);
    exact H.
Qed.

(** C6. A rejected position request ends the flow with one of exactly four
    messages, chosen by the error code: permission denied, position
    unavailable, timeout, and one more for every other code; the four are
    pairwise different.  A [PERMISSION_DENIED] error gives the
    permission-denied message.  Whatever happens (no geolocation object, a
    rejected position request, any settlement of the reverse-geocoding
    request), the run ends without an exception and with [isGeoLoading]
    false. *)
Theorem geolocation_platform_errors :
  (forall (code : N) (o : FetchOutcome Reverse.Data) (w : World),
      let w' := exec (getCurrentLocation true (PositionError code) o) w in
      geoError (ui w')
      = Some (if (code =? PERMISSION_DENIED)%N then Spec.permissionDenied
              else if (code =? POSITION_UNAVAILABLE)%N
                   then Spec.positionUnavailable
              else if (code =? TIMEOUT)%N then Spec.timedOut
              else Spec.otherPlatformError)
      /\ (exists m, geoError (ui w') = Some m /\ In m Spec.platformMessages)
      /\ trace w' = trace w ++ [GetCurrentPosition true 5000 0])
  /\ NoDup Spec.platformMessages
  /\ (forall (o : FetchOutcome Reverse.Data) (w : World),
         geoError (ui (exec (getCurrentLocation true
                               (PositionError PERMISSION_DENIED) o) w))
         = Some Spec.permissionDenied)
  /\ (forall (hasGeolocation : bool) (p : PositionResult)
             (o : FetchOutcome Reverse.Data) (w : World),
         isGeoLoading (ui (exec (getCurrentLocation hasGeolocation p o) w))
         = false
         /\ fst (getCurrentLocation hasGeolocation p o w) = Ok tt).
Proof.
  split; [|split; [exact platformMessages_NoDup|split]].
  - intros code o w w'. subst w'. run_on w.
    destruct (code =? PERMISSION_DENIED)%N;
      [|destruct (code =? POSITION_UNAVAILABLE)%N;
        [|destruct (code =? TIMEOUT)%N]];
      run; (split; [same|split; [|reflexivity]]).
    + exists Spec.permissionDenied. split; [same|]. left. reflexivity.
    + exists Spec.positionUnavailable. split; [same|].
      right. left. reflexivity.
    + exists Spec.timedOut. split; [same|].
      right. right. left. reflexivity.
    + exists Spec.otherPlatformError. split; [same|].
      right. right. right. left. reflexivity.
  - intros o w. run_on w. same.
  - apply getCurrentLocation_not_busy.
Qed.

Lemma added_app (w w' : World) (new : list Effect) :
  trace w' = trace w ++ new -> Spec.added w w' = new.
Proof.
  intros H. unfold Spec.added. rewrite H.
  rewrite skipn_app, skipn_all, Nat.sub_diag. reflexivity.
Qed.


(** C7 at a concrete address: a town, no city, a state. *)
Lemma geolocation_city_fallback_witness :
  location (ui (exec (getCurrentLocation true Examples.somewhere
                        (Examples.reverseOf Examples.lapa)) initialWorld))
  = js "Lapa, Paraná, Brasil".
Proof.
  exact (proj1 (proj2 (geolocation_city_fallback
                         Examples.lapa _ _ initialWorld)
                      (js "Lapa") (js "Paraná")
                      eq_refl eq_refl eq_refl)).
Defined.

(** C4, as amended.  When the reverse-geocoding response carries an address
    without a state or without any of [city], [town], [village],
    [municipality], the flow ends with the message "Erro ao determinar sua
    localização", nothing is passed to [onSearch] and the input keeps its
    text.  That message is none of the four platform-error messages nor the
    no-geolocation one; it is the very message a network failure, a non-OK
    status or an unparsable body of the reverse-geocoding request ends
    with. *)
Theorem geolocation_unresolved_message :
  forall (a : Reverse.Address) (latitude longitude : number) (w : World),
    Spec.firstNonEmpty [Reverse.city a; Reverse.town a;
                        Reverse.village a; Reverse.municipality a] = None
    \/ Spec.nonEmpty (Reverse.state a) = None ->
    let flow o := exec (getCurrentLocation true (Position latitude longitude)
                          o) w in
    let w' := flow (Response true (Some {| Reverse.address := Some a |})) in
    geoError (ui w') = Some Spec.errorDetermining
    /\ isGeoLoading (ui w') = false
    /\ Spec.added w w' = [GetCurrentPosition true 5000 0;
                          FetchReverse latitude longitude]
    /\ location (ui w') = location (ui w)
    /\ ~ In Spec.errorDetermining Spec.platformMessages
    /\ Spec.errorDetermining <> Spec.notSupported
    /\ geoError (ui (flow NetworkFailure)) = Some Spec.errorDetermining
    /\ (forall body,
           geoError (ui (flow (Response false body)))
           = Some Spec.errorDetermining)
    /\ geoError (ui (flow (Response true None))) = Some Spec.errorDetermining.
Proof.
  intros a latitude longitude w H flow w'.
  pose proof (getCurrentLocation_with_address a latitude longitude w) as G.
  cbv zeta in G. fold flow in G. fold w' in G.
  assert (G' : location (ui w') = location (ui w)
               /\ trace w' = trace w ++ [GetCurrentPosition true 5000 0;
                                         FetchReverse latitude longitude]
               /\ geoError (ui w') = Some Spec.errorDetermining).
  { destruct H as [H|H]; rewrite H in G; [exact G|].
    destruct (Spec.firstNonEmpty _); exact G. }
  clear G. destruct G' as (Hl & Ht & Hg).
  split; [|split; [|split; [|split; [|split; [|split; [|split; [|split]]]]]]].
  - exact Hg.
  - apply getCurrentLocation_not_busy.
  - apply added_app, Ht.
  - exact Hl.
  - unfold Spec.platformMessages. cbn [In].
    intros [F|[F|[F|[F|[]]]]]; vm_compute in F; discriminate F.
  - intros F. vm_compute in F. discriminate F.
  - subst flow. run_on w. same.
  - intros body. subst flow. run_on w. same.
  - subst flow. run_on w. same.
Qed.

Lemma geolocation_unresolved_message_witness :
  geoError (ui (exec (getCurrentLocation true Examples.somewhere
                        (Examples.reverseOf Examples.noState)) initialWorld))
  = Some Spec.errorDetermining.
Proof.
  exact (proj1 (geolocation_unresolved_message
                  Examples.noState _ _ initialWorld (or_intror eq_refl))).
Defined.

(** C4 as stated fails: for an address with a city and no state the flow
    does not end with "Não foi possível determinar sua localização" (the
    text of the error thrown inside the [try] block), and its message is the
    one a network failure of the reverse-geocoding request gives. *)
Lemma geolocation_unresolved_message_not_distinct :
  let flow o := exec (getCurrentLocation true Examples.somewhere o)
                     initialWorld in
  geoError (ui (flow (Examples.reverseOf Examples.noState)))
  <> Some Spec.couldNotDetermine
  /\ geoError (ui (flow (Examples.reverseOf Examples.noState)))
     = geoError (ui (flow NetworkFailure)).
Proof.
  split; [intros F; vm_compute in F; discriminate F | same].
Qed.

(** ** Selecting a suggestion *)

Ltac page_run :=
  unfold exec, Page.fetchWeatherData, Page.snapshotOf, settle, try_finally,
    try_catch, bind, ret, throw, Page.setWeather, Page.setLoading,
    Page.setError, Page.modify, Page.emit in *;
  cbn [fst snd Page.ui Page.trace Page.weather Page.loading Page.error negb]
    in *.

Ltac page_run_on w :=
  destruct w as [[? ? ?] ?]; page_run.

(** The first thing [fetchWeatherData] does to the outside is the request
    for the location it was given. *)
Lemma fetchWeatherData_requests
    (location : jsstring) (o : FetchOutcome Page.Raw.Data) (pw : Page.World) :
  well_formed location = true ->
  exists rest,
    Page.trace (exec (Page.fetchWeatherData location o) pw)
    = Page.trace pw ++ Page.FetchWeather location :: rest.
Proof.
  intros H. page_run_on pw. unfold encodeURIComponent. rewrite H. page_run.
  destruct o as [|[|] [data|]]; page_run;
    try (eexists; rewrite <- app_assoc; reflexivity).
  destruct (Page.Raw.currentConditions data) as [cc|];
    [destruct (Page.Raw.days data) as [[|[[hours|]] ?]|]|];
    page_run; eexists; try rewrite <- app_assoc; reflexivity.
Qed.

Lemma onSearch_exec_cons (l : jsstring) (r : list Effect)
    (net : jsstring -> FetchOutcome Page.Raw.Data) (pw : Page.World) :
  exec (App.onSearch (OnSearch l :: r) net) pw
  = exec (App.onSearch r net) (exec (Page.fetchWeatherData l (net l)) pw).
Proof.
  unfold exec. cbn [App.onSearch]. unfold bind at 1.
  destruct (Page.fetchWeatherData l (net l) pw) as [[[]|e] pw'] eqn:E;
    [reflexivity|].
  exfalso. revert E. page_run_on pw.
  destruct (encodeURIComponent l); page_run; [discriminate|].
  destruct (net l) as [|[|] [data|]]; page_run; try discriminate.
  destruct (Page.Raw.currentConditions data) as [cc|];
    [destruct (Page.Raw.days data) as [[|[[hours|]] ?]|]|];
    page_run; discriminate.
Qed.

Lemma handleSuggestionClick_exec (s : Suggestion) (w : World) :
  let l := locationString
             (or_empty (or (city (address s)) (town (address s))))
             (or_empty (state (address s))) in
  let w' := exec (handleSuggestionClick s) w in
  location (ui w') = l
  /\ showSuggestions (ui w') = false
  /\ trace w' = trace w ++ [OnSearch l]
  /\ suggestions (ui w') = suggestions (ui w)
  /\ geoError (ui w') = geoError (ui w).
Proof. run_on w. repeat split. Qed.

(** A click on the [i]-th slot of a mounted panel runs
    [handleSuggestionClick] on its entry when the slot has a button, and
    does nothing otherwise; the slot has a button when the panel was
    rendered open and the entry has a city or town and a state. *)
Lemma clickSuggestion_exec (rendered : State) (i : nat) (w : World) :
  exec (clickSuggestion rendered i) w
  = match nth_error (suggestions rendered) i with
    | Some s =>
      match Spec.firstNonEmpty [city (address s); town (address s)],
            Spec.nonEmpty (state (address s)) with
      | Some _, Some _ =>
        if showSuggestions rendered then exec (handleSuggestionClick s) w
        else w
      | _, _ => w
      end
    | None => w
    end.
Proof.
  unfold clickSuggestion, exec, suggestionPanel.
  destruct (showSuggestions rendered); cbn [andb].
  - destruct (suggestions rendered) as [|s0 r] eqn:E.
    + cbn. destruct i; reflexivity.
    + cbn [List.length Nat.ltb Nat.leb]. rewrite nth_error_map.
      destruct (nth_error (s0 :: r) i) as [s|]; [|reflexivity].
      cbn [option_map]. unfold suggestionButton.
      rewrite <- or_firstNonEmpty.
      destruct (or (city (address s)) (town (address s))) as [[|? ?]|],
               (state (address s)) as [[|? ?]|]; reflexivity.
  - rewrite nth_error_nil.
    destruct (nth_error (suggestions rendered) i) as [s|]; [|reflexivity].
    destruct (Spec.firstNonEmpty _); [|reflexivity].
    destruct (Spec.nonEmpty _); reflexivity.
Qed.

(** C8. Selecting a suggestion whose address has the city "Curitiba" and the
    state "Paraná" puts exactly "Curitiba, Paraná, Brasil" in the input,
    closes the panel and calls [onSearch] once, with that string, upon which
    the page requests the weather for that string.  A click on that
    suggestion's button is such a selection, in the panel that is open now
    as well as in a panel that was rendered open and is still mounted. *)
Theorem select_curitiba :
  forall (s : Suggestion) (w : World)
         (net : jsstring -> FetchOutcome Page.Raw.Data) (pw : Page.World),
    city (address s) = Some (js "Curitiba") ->
    state (address s) = Some (js "Paraná") ->
    let w' := exec (handleSuggestionClick s) w in
    location (ui w') = js "Curitiba, Paraná, Brasil"
    /\ showSuggestions (ui w') = false
    /\ Spec.added w w' = [OnSearch (js "Curitiba, Paraná, Brasil")]
    /\ (exists rest,
           Page.trace (exec (App.onSearch (Spec.added w w') net) pw)
           = Page.trace pw
             ++ Page.FetchWeather (js "Curitiba, Paraná, Brasil") :: rest)
    /\ (forall rendered i,
           showSuggestions rendered = true ->
           nth_error (suggestions rendered) i = Some s ->
           exec (clickSuggestion rendered i) w = w').
Proof.
  intros s w net pw Hc Hs w'.
  destruct (handleSuggestionClick_exec s w) as (Hl & Hsh & Ht & _).
  fold w' in Hl, Hsh, Ht.
  assert (E : locationString
                (or_empty (or (city (address s)) (town (address s))))
                (or_empty (state (address s)))
              = js "Curitiba, Paraná, Brasil").
  { rewrite Hc, Hs. same. }
  rewrite E in Hl, Ht. apply added_app in Ht.
  split; [exact Hl|]. split; [exact Hsh|]. split; [exact Ht|]. split.
  - rewrite Ht, onSearch_exec_cons. cbn [App.onSearch]. unfold exec at 1.
    cbn [ret snd]. apply fetchWeatherData_requests. same.
  - intros rendered i Hshow Hn.
    rewrite clickSuggestion_exec, Hn, Hc, Hs, Hshow. reflexivity.
Qed.

Lemma select_curitiba_witness :
  location (ui (exec (handleSuggestionClick Examples.curitiba)
                     Examples.openPanel))
  = js "Curitiba, Paraná, Brasil"
  /\ exec (clickSuggestion (ui Examples.openPanel) 0) Examples.openPanel
     = exec (handleSuggestionClick Examples.curitiba) Examples.openPanel.
Proof.
  pose (T := select_curitiba Examples.curitiba Examples.openPanel
               (fun _ => NetworkFailure)
               {| Page.ui := Page.initialState; Page.trace := [] |}
               eq_refl eq_refl).
  split.
  - exact (proj1 T).
  - exact (proj2 (proj2 (proj2 (proj2 T))) (ui Examples.openPanel) 0%nat
                 eq_refl eq_refl).
Defined.

Lemma emitted_app (w w' : World) (new : list Effect) :
  trace w' = trace w ++ new -> Spec.emitted w w' = filter isOnSearch new.
Proof. intros H. unfold Spec.emitted. now rewrite (added_app _ _ _ H). Qed.


Ltac emitted_by_trace :=
  erewrite emitted_app
    by (cbn [trace]; rewrite <- ?app_assoc;
        first [reflexivity | symmetry; apply app_nil_r]);
  reflexivity.



(** Two clicks on the same button, the second while the panel closed by the
    first is leaving, select twice. *)
Example double_click_selects_twice :
  Spec.emitted Examples.openPanel
    (exec (clickSuggestion (ui Examples.openPanel) 0 ;;
           clickSuggestion (ui Examples.openPanel) 0) Examples.openPanel)
  = [OnSearch (js "Curitiba, Paraná, Brasil");
     OnSearch (js "Curitiba, Paraná, Brasil")].
Proof. reflexivity. Qed.

(** ** The suggestion lookup *)

Lemma trimStart_length (s : jsstring) :
  (List.length (trimStart s) <= List.length s)%nat.
Proof.
  induction s as [|c r IH]; cbn; [lia|].
  destruct (is_white_space c); cbn; lia.
Qed.

Lemma trim_length (s : jsstring) :
  (List.length (trim s) <= List.length s)%nat.
Proof.
  unfold trim, trimEnd. rewrite length_rev.
  etransitivity; [apply trimStart_length|].
  rewrite length_rev. apply trimStart_length.
Qed.

(** C3, as amended.  For every query of fewer than 3 code units, trimmed or
    not, the lookup issues no request and sets the suggestion list to
    empty; such a query has fewer than 3 code units after trimming too.  A
    well-formed query of 3 code units or more is requested as it is,
    whatever its trimmed length. *)
Theorem fetchSuggestions_short_query :
  forall (query : jsstring) (o : FetchOutcome (list Suggestion)) (w : World),
    (List.length query < 3)%nat ->
    let w' := exec (fetchSuggestions query o) w in
    Spec.added w w' = []
    /\ suggestions (ui w') = []
    /\ (List.length (trim query) < 3)%nat
    /\ forall longer : jsstring,
        (3 <= List.length longer)%nat -> well_formed longer = true ->
        exists rest,
          Spec.added w (exec (fetchSuggestions longer o) w)
          = FetchSearch longer :: rest.
Proof.
  intros query o w H w'. subst w'.
  split; [|split; [|split]].
  - apply added_app. run_on w. apply Nat.ltb_lt in H. rewrite H. run.
    now rewrite app_nil_r.
  - run_on w. apply Nat.ltb_lt in H. rewrite H. reflexivity.
  - pose proof (trim_length query). lia.
  - intros longer Hl Hw. run_on w. unfold encodeURIComponent. rewrite Hw.
    apply Nat.ltb_ge in Hl. rewrite Hl. run.
    destruct o as [|[|] [data|]]; run; eexists; apply added_app;
      cbn [trace]; rewrite <- ?app_assoc; reflexivity.
Qed.

Lemma fetchSuggestions_short_query_witness :
  suggestions (ui (exec (fetchSuggestions (js "Cu") NetworkFailure)
                        Examples.openPanel)) = [].
Proof.
  refine (proj1 (proj2 (fetchSuggestions_short_query
                          (js "Cu") NetworkFailure Examples.openPanel _))).
  vm_compute. lia.
Defined.

(** C3 as stated fails: the query "a" followed by two spaces has one code
    unit after trimming, and the lookup issues the request for it and shows
    what comes back. *)
Lemma fetchSuggestions_trimmed_short_query_requested :
  let w' := exec (fetchSuggestions (js "a  ")
                    (Response true (Some [Examples.curitiba])))
                 initialWorld in
  (List.length (trim (js "a  ")) < 3)%nat
  /\ Spec.added initialWorld w' = [FetchSearch (js "a  ")]
  /\ suggestions (ui w') = [Examples.curitiba].
Proof. vm_compute. repeat split. lia. Qed.

(** ** The weather fetch *)

(** [Math.round] gives the integer [r] with [r <= q + 1/2 < r + 1]. *)
Lemma round_half_up_spec (q : Q) :
  (inject_Z (round_half_up q) <= q + (1 # 2))%Q
  /\ (q + (1 # 2) < inject_Z (round_half_up q + 1))%Q.
Proof. unfold round_half_up. split; [apply Qfloor_le | apply Qlt_floor]. Qed.

Lemma round_half_up_zero (q : Q) :
  Qeq_bool q 0 = true -> round_half_up q = 0%Z.
Proof.
  intros H. apply Qeq_bool_iff in H. unfold round_half_up.
  assert (E : (q + (1 # 2) == 1 # 2)%Q) by (rewrite H; reflexivity).
  rewrite (Qfloor_comp _ _ E). reflexivity.
Qed.

(** [Math.round(v || 0)] of a finite number is that number rounded. *)
Lemma round_or_zero (q : Q) :
  Math_round (ToNumber (or_zero (Number (Num q))))
  = Num (inject_Z (round_half_up q)).
Proof.
  unfold or_zero, truthy_val. destruct (Qeq_bool q 0) eqn:E; cbn [negb].
  - rewrite (round_half_up_zero q E). reflexivity.
  - reflexivity.
Qed.

(** Every run of [fetchWeatherData] ends in one of two ways: with a new
    snapshot and no error, or with the error message and the snapshot it
    started with; [loading] is false either way. *)
Lemma fetchWeatherData_exec
    (location : jsstring) (o : FetchOutcome Page.Raw.Data) (w : Page.World) :
  let w' := exec (Page.fetchWeatherData location o) w in
  Page.loading (Page.ui w') = false
  /\ ((exists data cc day rest hours,
          o = Response true (Some data)
          /\ well_formed location = true
          /\ Page.Raw.currentConditions data = Some cc
          /\ Page.Raw.days data = Some (day :: rest)
          /\ Page.Raw.hours day = Some hours
          /\ Page.error (Page.ui w') = None
          /\ Page.weather (Page.ui w') = Some (Page.snapshot data cc hours))
      \/ (Page.error (Page.ui w') = Some Spec.weatherError
          /\ Page.weather (Page.ui w') = Page.weather (Page.ui w))).
Proof.
  page_run_on w. unfold encodeURIComponent.
  destruct (well_formed location) eqn:Hw; page_run;
    [|split; [reflexivity|right; split; [same|reflexivity]]].
  destruct o as [|[|] [data|]]; page_run;
    try (split; [reflexivity|right; split; [same|reflexivity]]).
  destruct (Page.Raw.currentConditions data) as [cc|] eqn:Ecc;
    [destruct (Page.Raw.days data) as [[|[[hours|]] rest]|] eqn:Ed|];
    page_run;
    try (split; [reflexivity|right; split; [same|reflexivity]]).
  split; [reflexivity|left].
  exists data, cc, {| Page.Raw.hours := Some hours |}, rest, hours.
  repeat split; assumption.
Qed.

(** C9. When a weather fetch fails (the request is rejected, the status is
    not OK, or the body does not parse), the error message "Erro ao buscar
    dados meteorológicos" is set, [loading] is false and the stored snapshot
    is the one from before the fetch.  More generally every run that ends
    with an error message leaves the snapshot as it was. *)
Theorem weather_fetch_failure_keeps_snapshot :
  forall (location : jsstring) (w : Page.World),
    let after o := Page.ui (exec (Page.fetchWeatherData location o) w) in
    let failed (st : Page.State) :=
        Page.error st = Some Spec.weatherError
        /\ Page.loading st = false
        /\ Page.weather st = Page.weather (Page.ui w) in
    failed (after NetworkFailure)
    /\ (forall body, failed (after (Response false body)))
    /\ failed (after (Response true None))
    /\ (forall o, Page.error (after o) <> None -> failed (after o)).
Proof.
  intros location w after failed.
  assert (G : forall o, Page.error (after o) <> None -> failed (after o)).
  { intros o H. subst after failed. cbv beta in *.
    destruct (fetchWeatherData_exec location o w) as [Hl [S|[He Hw]]].
    - destruct S as (? & ? & ? & ? & ? & _ & _ & _ & _ & _ & He & _).
      contradiction.
    - auto. }
  assert (E : forall o,
             match o with Response true (Some _) => True | _ =>
               Page.error (after o) <> None end).
  { intros o. subst after. cbv beta.
    destruct (fetchWeatherData_exec location o w) as [_ [S|[He _]]].
    - destruct S as (? & ? & ? & ? & ? & -> & _). exact I.
    - destruct o as [|[|] [?|]]; try exact I; rewrite He; discriminate. }
  split; [apply G; exact (E NetworkFailure)|].
  split; [intros body; apply G; exact (E (Response false body))|].
  split; [apply G; exact (E (Response true None)) | exact G].
Qed.

Lemma weather_fetch_failure_keeps_snapshot_witness :
  let w := exec (Page.fetchWeatherData (js "Curitiba")
                   (Response true (Some Examples.longDay)))
                Examples.emptyPage in
  let st := Page.ui (exec (Page.fetchWeatherData (js "Atlântida")
                             (Response false None)) w) in
  Page.error st = Some Spec.weatherError
  /\ Page.loading st = false
  /\ Page.weather st = Page.weather (Page.ui w).
Proof.
  intros w st.
  refine (proj2 (proj2 (proj2 (weather_fetch_failure_keeps_snapshot
                                 (js "Atlântida") w)))
                (Response false None) _).
  vm_compute. discriminate.
Defined.

(** C5, as amended.  After a successful weather fetch the temperature,
    wind-speed, precipitation and humidity of the new snapshot are the raw
    values of the response's current conditions, rounded to the nearest
    integer; the hourly forecast has one entry for each entry of the first
    day's hours, however many there are, in the order of the response, each
    with the temperature rounded. *)
Theorem weather_fetch_success_snapshot :
  forall (location : jsstring) (o : FetchOutcome Page.Raw.Data)
         (w : Page.World),
    let w' := exec (Page.fetchWeatherData location o) w in
    Page.error (Page.ui w') = None ->
    exists data cc day rest hours snapshot,
      o = Response true (Some data)
      /\ Page.Raw.currentConditions data = Some cc
      /\ Page.Raw.days data = Some (day :: rest)
      /\ Page.Raw.hours day = Some hours
      /\ Page.weather (Page.ui w') = Some snapshot
      /\ (forall q, Page.Raw.cc_temp cc = Number (Num q) ->
                    Page.WeatherData.temperature snapshot
                    = Num (inject_Z (round_half_up q)))
      /\ (forall q, Page.Raw.humidity cc = Number (Num q) ->
                    Page.WeatherData.humidity snapshot
                    = Num (inject_Z (round_half_up q)))
      /\ (forall q, Page.Raw.windspeed cc = Number (Num q) ->
                    Page.WeatherData.windSpeed snapshot
                    = Num (inject_Z (round_half_up q)))
      /\ (forall q, Page.Raw.precipprob cc = Number (Num q) ->
                    Page.WeatherData.precipitation snapshot
                    = Num (inject_Z (round_half_up q)))
      /\ List.length (Page.WeatherData.hourlyForecast snapshot)
         = List.length hours
      /\ (forall i,
             nth_error (Page.WeatherData.hourlyForecast snapshot) i
             = option_map
                 (fun hour =>
                    {| Page.HourlyForecast.datetime := Page.Raw.datetime hour;
                       Page.HourlyForecast.temp :=
                         Math_round (ToNumber (Page.Raw.temp hour));
                       Page.HourlyForecast.conditions :=
                         Page.Raw.conditions hour |})
                 (nth_error hours i)).
Proof.
  intros location o w w' H.
  pose proof (fetchWeatherData_exec location o w) as G.
  cbv zeta in G. fold w' in G.
  destruct G as [_ [S|[He _]]]; [|rewrite He in H; discriminate].
  destruct S as (data & cc & day & rest & hours & Ho & _ & Hcc & Hd & Hh
                 & _ & Hw).
  exists data, cc, day, rest, hours, (Page.snapshot data cc hours).
  repeat (split; [assumption|]).
  unfold Page.snapshot; cbn [Page.WeatherData.temperature
    Page.WeatherData.humidity Page.WeatherData.windSpeed
    Page.WeatherData.precipitation Page.WeatherData.hourlyForecast].
  split; [intros q ->; reflexivity|].
  split; [intros q ->; apply round_or_zero|].
  split; [intros q ->; reflexivity|].
  split; [intros q ->; apply round_or_zero|].
  split; [apply length_map|].
  intros i. rewrite nth_error_map. reflexivity.
Qed.

Lemma weather_fetch_success_snapshot_witness :
  exists snapshot,
    Page.weather (Page.ui (exec (Page.fetchWeatherData (js "Curitiba")
                                   (Response true (Some Examples.longDay)))
                                Examples.emptyPage)) = Some snapshot
    /\ Page.WeatherData.temperature snapshot = Num 22
    /\ Page.WeatherData.humidity snapshot = Num 64
    /\ Page.WeatherData.windSpeed snapshot = Num 8
    /\ List.length (Page.WeatherData.hourlyForecast snapshot) = 25%nat.
Proof.
  destruct (weather_fetch_success_snapshot
              (js "Curitiba") (Response true (Some Examples.longDay))
              Examples.emptyPage eq_refl)
    as (data & cc & day & rest & hours & snapshot & Ho & Hcc & Hd & Hh & Hw
        & Ht & Hhu & Hws & _ & Hlen & _).
  injection Ho as <-. injection Hcc as <-. injection Hd as <- _.
  injection Hh as <-.
  exists snapshot. split; [exact Hw|].
  split; [exact (Ht _ eq_refl)|].
  split; [exact (Hhu _ eq_refl)|].
  split; [exact (Hws _ eq_refl)|exact Hlen].
Defined.

(** C5 as stated fails: a response whose first day has 25 hourly entries
    gives a snapshot with 25 entries, not 24. *)
Lemma hourly_forecast_not_capped :
  let w' := exec (Page.fetchWeatherData (js "Curitiba")
                    (Response true (Some Examples.longDay)))
                 Examples.emptyPage in
  Page.error (Page.ui w') = None
  /\ exists snapshot,
      Page.weather (Page.ui w') = Some snapshot
      /\ (24 < List.length (Page.WeatherData.hourlyForecast snapshot))%nat.
Proof.
  vm_compute. split; [reflexivity|]. eexists. split; [reflexivity|].
  cbn [List.length]. lia.
Qed.

(** C10. After a successful weather fetch, a precipitation probability or a
    humidity that the response omits is stored as 0.  Temperature and wind
    speed have no such default: they are [Math.round] of the raw value as it
    is, which for an omitted value is [NaN]. *)
Theorem weather_fetch_defaults :
  forall (location : jsstring) (o : FetchOutcome Page.Raw.Data)
         (w : Page.World),
    let w' := exec (Page.fetchWeatherData location o) w in
    Page.error (Page.ui w') = None ->
    exists data cc snapshot,
      o = Response true (Some data)
      /\ Page.Raw.currentConditions data = Some cc
      /\ Page.weather (Page.ui w') = Some snapshot
      /\ (Page.Raw.precipprob cc = Undefined ->
          Page.WeatherData.precipitation snapshot = Num 0)
      /\ (Page.Raw.humidity cc = Undefined ->
          Page.WeatherData.humidity snapshot = Num 0)
      /\ Page.WeatherData.temperature snapshot
         = Math_round (ToNumber (Page.Raw.cc_temp cc))
      /\ Page.WeatherData.windSpeed snapshot
         = Math_round (ToNumber (Page.Raw.windspeed cc))
      /\ (Page.Raw.cc_temp cc = Undefined ->
          Page.WeatherData.temperature snapshot = NaN)
      /\ (Page.Raw.windspeed cc = Undefined ->
          Page.WeatherData.windSpeed snapshot = NaN).
Proof.
  intros location o w w' H.
  pose proof (fetchWeatherData_exec location o w) as G.
  cbv zeta in G. fold w' in G.
  destruct G as [_ [S|[He _]]]; [|rewrite He in H; discriminate].
  destruct S as (data & cc & day & rest & hours & Ho & _ & Hcc & _ & _
                 & _ & Hw).
  exists data, cc, (Page.snapshot data cc hours).
  repeat (split; [assumption|]).
  unfold Page.snapshot; cbn [Page.WeatherData.temperature
    Page.WeatherData.humidity Page.WeatherData.windSpeed
    Page.WeatherData.precipitation].
  repeat split; intros ->; reflexivity.
Qed.

Lemma weather_fetch_defaults_witness :
  exists snapshot,
    Page.weather (Page.ui (exec (Page.fetchWeatherData (js "Curitiba")
                                   (Response true (Some Examples.longDay)))
                                Examples.emptyPage)) = Some snapshot
    /\ Page.WeatherData.precipitation snapshot = Num 0.
Proof.
  destruct (weather_fetch_defaults
              (js "Curitiba") (Response true (Some Examples.longDay))
              Examples.emptyPage eq_refl)
    as (data & cc & snapshot & Ho & Hcc & Hw & Hp & _).
  injection Ho as <-. injection Hcc as <-.
  exists snapshot. split; [exact Hw | exact (Hp eq_refl)].
Defined.

(** ** The debounced lookup *)

Ltac timer_run :=
  do 3 (unfold exec, wait, runUntil, setTimers, setNow, handleInputChange,
          setTimeout, clearTimeout, typeAfter, fireTimer in *;
        run;
        cbn [filter fireTimers sortTimers rev fold_right insertTimer app
             deadline value timerId fst snd ui trace now timers nextTimerId
             searchTimeout location] in *).

Lemma pending_timers_ok (w : World) (d : Z) (v : jsstring) :
  pending w d v -> timers_ok w.
Proof.
  intros (id & Ht & Hs). unfold timers_ok. rewrite Ht, Hs.
  repeat constructor.
Qed.

Lemma initialWorld_timers_ok : timers_ok initialWorld.
Proof. constructor. Qed.

(** [clearTimeout(searchTimeout.current)] leaves no timer pending. *)
Lemma clear_all (id : positive) (l : list Timer) :
  Forall (fun t => Some id = Some (timerId t)) l ->
  filter (fun t => negb (Pos.eqb (timerId t) id)) l = [].
Proof.
  induction 1 as [|t r Ht _ IH]; [reflexivity|].
  cbn [filter]. injection Ht as <-. rewrite Pos.eqb_refl. exact IH.
Qed.

(** After an input change exactly one lookup is scheduled, 300 ms ahead,
    for the new text: the one scheduled before, if any, is cancelled. *)
Lemma handleInputChange_pending (v : jsstring) (w : World) :
  timers_ok w ->
  let w' := exec (handleInputChange v) w in
  pending w' (now w + 300) v
  /\ trace w' = trace w
  /\ now w' = now w
  /\ location (ui w') = v
  /\ fst (handleInputChange v w) = Ok tt.
Proof.
  unfold timers_ok. destruct w as [[l s g gl sh st] n tm nx tr].
  cbn [ui timers searchTimeout]. intros H.
  destruct st as [id|].
  - timer_run. rewrite (clear_all id tm H). cbn [app].
    repeat split. exists nx. split; reflexivity.
  - assert (tm = []) as ->.
    { destruct H as [|t r Ht _]; [reflexivity | discriminate]. }
    timer_run. repeat split. exists nx. split; reflexivity.
Qed.

(** Before the scheduled lookup is due, the passing of time changes
    nothing but the clock. *)
Lemma wait_before (w : World) (d : Z) (v : jsstring) (gap : Z) :
  pending w d v -> (0 <= gap)%Z -> (now w + gap < d)%Z ->
  let w' := exec (wait gap) w in
  pending w' d v
  /\ trace w' = trace w
  /\ now w' = (now w + gap)%Z
  /\ fst (wait gap w) = Ok tt.
Proof.
  intros (id & Ht & Hs) Hg Hd.
  destruct w as [[l s g gl sh st] n tm nx tr].
  cbn [ui timers searchTimeout now] in *. subst tm st.
  timer_run.
  assert (E : (d <=? n + gap)%Z = false) by (apply Z.leb_gt; lia).
  rewrite E. timer_run.
  repeat split; [|lia].
  exists id. split; reflexivity.
Qed.

(** Once it is due, the lookup runs, at its deadline, for the text it was
    scheduled with. *)
Lemma wait_past (w : World) (d : Z) (v : jsstring) (T : Z) :
  pending w d v -> (now w <= d)%Z -> (d <= now w + T)%Z ->
  let w' := exec (wait T) w in
  trace w' = trace w ++ Lookup d v :: requestEffects v
  /\ timers w' = []
  /\ location (ui w') = location (ui w).
Proof.
  intros (id & Ht & Hs) Hn Hd.
  destruct w as [[l s g gl sh st] n tm nx tr].
  cbn [ui timers searchTimeout now] in *. subst tm st.
  timer_run.
  assert (E : (d <=? n + T)%Z = true) by (apply Z.leb_le; lia).
  rewrite E. timer_run.
  replace (Z.max n d) with d by lia.
  unfold requestEffects.
  destruct (List.length v <? 3)%nat; timer_run.
  - repeat split.
  - destruct (encodeURIComponent v); timer_run;
      rewrite <- ?app_assoc; repeat split.
Qed.

Lemma exec_bind {W A B} (m : Handler.M W A) (k : A -> Handler.M W B)
    (a : A) (w : W) :
  fst (m w) = Ok a -> exec (bind m k) w = exec (k a) (exec m w).
Proof.
  unfold exec, bind. destruct (m w) as [[a'|e] w1]; cbn; [|discriminate].
  now intros [= ->].
Qed.

Lemma exec_seq {W B} (m : Handler.M W unit) (k : Handler.M W B) (w : W) :
  fst (m w) = Ok tt -> exec (m ;; k) w = exec k (exec m w).
Proof. apply (exec_bind m (fun _ => k) tt). Qed.

Lemma typeAfter_pending (k : Z * jsstring) (w : World) (v : jsstring) :
  pending w (now w + 300) v -> (0 <= fst k < 300)%Z ->
  let w' := exec (typeAfter k) w in
  pending w' (now w' + 300) (snd k)
  /\ trace w' = trace w
  /\ now w' = (now w + fst k)%Z
  /\ location (ui w') = snd k
  /\ fst (typeAfter k w) = Ok tt.
Proof.
  intros Hp Hk.
  destruct (wait_before w _ v (fst k) Hp) as (Hp0 & Ht0 & Hn0 & Ho0);
    [lia..|].
  destruct (handleInputChange_pending (snd k) (exec (wait (fst k)) w)
              (pending_timers_ok _ _ _ Hp0)) as (Hp1 & Ht1 & Hn1 & Hl1 & Ho1).
  assert (E : exec (typeAfter k) w
              = exec (handleInputChange (snd k)) (exec (wait (fst k)) w)).
  { unfold typeAfter. apply exec_seq. exact Ho0. }
  cbv zeta. rewrite E.
  split; [rewrite Hn1; exact Hp1|].
  split; [congruence|]. split; [congruence|]. split; [exact Hl1|].
  unfold typeAfter, bind. unfold exec in Ho1.
  destruct (wait (fst k) w) as [[[]|e] w0]; [exact Ho1 | discriminate].
Qed.

Lemma typeBurst_pending (ks : list (Z * jsstring)) :
  forall (w : World) (v : jsstring),
    pending w (now w + 300) v -> location (ui w) = v ->
    Forall (fun k => 0 <= fst k < 300)%Z ks ->
    let w' := exec (typeBurst ks) w in
    pending w' (fst (burstEnd (now w) v ks) + 300) (snd (burstEnd (now w) v ks))
    /\ trace w' = trace w
    /\ now w' = fst (burstEnd (now w) v ks)
    /\ location (ui w') = snd (burstEnd (now w) v ks)
    /\ fst (typeBurst ks w) = Ok tt.
Proof.
  induction ks as [|k r IH]; intros w v Hp Hl Hk.
  - cbn. repeat split; assumption.
  - apply Forall_cons_iff in Hk. destruct Hk as [Hk0 Hr].
    destruct (typeAfter_pending k w v Hp Hk0) as (Hp1 & Ht1 & Hn1 & Hl1 & Ho1).
    specialize (IH (exec (typeAfter k) w) (snd k) Hp1 Hl1 Hr).
    cbv zeta in IH. rewrite Hn1 in IH.
    assert (E : exec (typeBurst (k :: r)) w
                = exec (typeBurst r) (exec (typeAfter k) w)).
    { cbn [typeBurst]. apply exec_seq. exact Ho1. }
    cbv zeta. rewrite E. unfold burstEnd in *. cbn [fold_left fst snd].
    destruct IH as (I1 & I2 & I3 & I4 & I5).
    split; [exact I1|]. split; [congruence|]. split; [exact I3|].
    split; [exact I4|].
    cbn [typeBurst]. unfold bind. unfold exec in I5.
    destruct (typeAfter k w) as [[[]|e] w0]; [exact I5 | discriminate].
Qed.

Lemma requestEffects_lookups (v : jsstring) :
  filter isLookup (requestEffects v) = []
  /\ (List.length (filter isFetchSearch (requestEffects v)) <= 1)%nat.
Proof.
  unfold requestEffects.
  destruct (List.length v <? 3)%nat; [cbn; split; [reflexivity|lia]|].
  destruct (encodeURIComponent v); cbn; split; (reflexivity || lia).
Qed.

(** C1. A burst of input changes, each less than 300 ms after the one
    before, leads to exactly one lookup: the call of [fetchSuggestions] with
    the text of the last change, 300 ms after it, and with it at most one
    request to the geocoding service; nothing is looked up while less than
    300 ms have passed since the last change.  Each input change cancels the
    lookup scheduled before it and schedules its own. *)
Theorem debounced_lookup :
  forall (w : World) (v : jsstring) (ks : list (Z * jsstring)) (T : Z),
    timers_ok w ->
    Forall (fun k => 0 <= fst k < 300)%Z ks ->
    (0 <= T)%Z ->
    let last := burstEnd (now w) v ks in
    let w' := exec (handleInputChange v ;; typeBurst ks ;; wait T) w in
    Spec.added w w'
    = (if (T <? 300)%Z then []
       else Lookup (fst last + 300) (snd last) :: requestEffects (snd last))
    /\ (List.length (filter isLookup (Spec.added w w')) <= 1)%nat
    /\ (List.length (filter isFetchSearch (Spec.added w w')) <= 1)%nat
    /\ location (ui w') = snd last
    /\ pending (exec (handleInputChange v) w) (now w + 300) v.
Proof.
  intros w v ks T Hok Hks HT last w'.
  destruct (handleInputChange_pending v w Hok) as (Hp0 & Ht0 & Hn0 & Hl0 & Ho0).
  set (w0 := exec (handleInputChange v) w) in *.
  rewrite <- Hn0 in Hp0.
  destruct (typeBurst_pending ks w0 v Hp0 Hl0 Hks) as (Hp1 & Ht1 & Hn1 & Hl1 & Ho1).
  rewrite Hn0 in Hp1, Hn1, Hl1. fold last in Hp1, Hn1, Hl1.
  set (w1 := exec (typeBurst ks) w0) in *.
  assert (E : w' = exec (wait T) w1).
  { subst w' w1 w0. rewrite exec_seq by exact Ho0.
    apply exec_seq. exact Ho1. }
  assert (A : Spec.added w w'
              = (if (T <? 300)%Z then []
                 else Lookup (fst last + 300) (snd last)
                        :: requestEffects (snd last))
              /\ location (ui w') = snd last).
  { rewrite E. destruct (T <? 300)%Z eqn:ET.
    - apply Z.ltb_lt in ET.
      destruct (wait_before w1 _ _ T Hp1 HT) as ((id & _ & Hs) & Ht2 & _);
        [lia|].
      split.
      + apply added_app. rewrite Ht2, Ht1, Ht0. now rewrite app_nil_r.
      + rewrite <- Hl1. clear - Hp1 ET HT.
        destruct Hp1 as (id & Htm & Hs).
        destruct w1 as [[l s g gl sh st] n tm nx tr].
        cbn [ui timers searchTimeout now] in *. subst tm st.
        timer_run.
        destruct (fst last + 300 <=? n + T)%Z; timer_run; try reflexivity.
        destruct (List.length (snd last) <? 3)%nat; timer_run;
          try reflexivity.
        destruct (encodeURIComponent (snd last)); timer_run; reflexivity.
    - apply Z.ltb_ge in ET.
      destruct (wait_past w1 _ _ T Hp1) as (Ht2 & _ & Hl2); [lia..|].
      split; [|congruence].
      apply added_app. rewrite Ht2, Ht1, Ht0. reflexivity. }
  destruct A as [A Hl]. rewrite A.
  destruct (requestEffects_lookups (snd last)) as [R1 R2].
  split; [reflexivity|]. split; [|split; [|split; [exact Hl|]]].
  - destruct (T <? 300)%Z; cbn [filter isLookup List.length]; [lia|].
    rewrite R1. cbn. lia.
  - destruct (T <? 300)%Z; cbn [filter isFetchSearch List.length]; [lia|].
    exact R2.
  - rewrite Hn0 in Hp0. exact Hp0.
Qed.

Lemma debounced_lookup_witness :
  Spec.added initialWorld
    (exec (handleInputChange (js "C") ;;
           typeBurst [(120, js "Cu"); (90, js "Cur"); (200, js "Curi")]%Z ;;
           wait 1000) initialWorld)
  = [Lookup 710 (js "Curi"); FetchSearch (js "Curi")].
Proof.
  refine (proj1 (debounced_lookup initialWorld (js "C")
                   [(120, js "Cu"); (90, js "Cur"); (200, js "Curi")]%Z 1000
                   initialWorld_timers_ok _ _)).
  - repeat constructor; cbn; lia.
  - lia.
Defined.

(** * Further properties of the search bar *)

(** ** Submitting the form *)

Lemma trimStart_nil (s : jsstring) :
  trimStart s = [] <-> forallb is_white_space s = true.
Proof.
  induction s as [|c r IH]; cbn; [tauto|].
  destruct (is_white_space c); cbn; [exact IH|].
  split; discriminate.
Qed.

Lemma trim_nil (s : jsstring) :
  trim s = [] <-> forallb is_white_space s = true.
Proof.
  unfold trim, trimEnd. split.
  - intros H. apply (f_equal (@rev N)) in H. rewrite rev_involutive in H.
    cbn in H. apply trimStart_nil in H.
    destruct (trimStart s) as [|c r] eqn:E; [now apply trimStart_nil|].
    exfalso.
    assert (Hc : is_white_space c = true).
    { rewrite forallb_forall in H. apply H, in_rev.
      rewrite rev_involutive. now left. }
    clear H. induction s as [|d t IH]; cbn in E; [discriminate|].
    destruct (is_white_space d) eqn:Ed; [auto|].
    injection E as -> _. congruence.
  - intros H. apply trimStart_nil in H. rewrite H. reflexivity.
Qed.

Lemma handleSubmit_exec (w : World) :
  ui (exec handleSubmit w) = ui w
  /\ trace (exec handleSubmit w)
     = trace w ++ (if forallb is_white_space (location (ui w)) then []
                   else [OnSearch (location (ui w))]).
Proof.
  pose proof (trim_nil (location (ui w))) as T.
  destruct w as [[l s g gl sh st] n tm nx tr]. run.
  destruct (trim l) as [|c r] eqn:E; run.
  - rewrite (proj1 T eq_refl). split; [reflexivity|].
    cbn. now rewrite app_nil_r.
  - destruct (forallb is_white_space l).
    + destruct T as [_ T]. discriminate (T eq_refl).
    + split; reflexivity.
Qed.

(** X1. Submitting the form passes the text of the input to [onSearch], as
    it is (untrimmed), exactly when the text has a character that is not
    white space; the component's state is left as it was. *)
Theorem handleSubmit_nonblank :
  forall (w : World),
    let w' := exec handleSubmit w in
    ui w' = ui w
    /\ Spec.added w w'
       = if forallb is_white_space (location (ui w)) then []
         else [OnSearch (location (ui w))].
Proof.
  intros w w'. subst w'. destruct (handleSubmit_exec w) as [Hu Ht].
  split; [exact Hu | exact (added_app _ _ _ Ht)].
Qed.

(** ** The suggestion lookup and its panel *)

Lemma truthy_firstNonEmpty (a b : optstring) :
  truthy (or a b) = true <-> Spec.firstNonEmpty [a; b] <> None.
Proof.
  rewrite <- or_firstNonEmpty, truthy_spec. unfold Spec.nonEmpty.
  destruct (Spec.firstNonEmpty [or a b]); split; congruence.
Qed.

Lemma suggestionButton_with_city (s : Suggestion) :
  Spec.firstNonEmpty [city (address s); town (address s)] <> None ->
  suggestionButton s
  = match Spec.nonEmpty (state (address s)) with
    | Some _ => Some s
    | None => None
    end.
Proof.
  rewrite <- or_firstNonEmpty. unfold suggestionButton.
  destruct (or (city (address s)) (town (address s))) as [[|? ?]|],
           (state (address s)) as [[|? ?]|]; cbn; congruence.
Qed.

(** X2. A lookup whose request is answered with a list of results keeps
    exactly the results that have a non-empty city or town, opens the
    panel, and leaves the input text and the geolocation error alone.  In
    the panel a kept result lacks a button only when it has no state. *)
Theorem fetchSuggestions_success :
  forall (query : jsstring) (data : list Suggestion) (w : World),
    (3 <= List.length query)%nat ->
    well_formed query = true ->
    let w' := exec (fetchSuggestions query (Response true (Some data))) w in
    (forall s, In s (suggestions (ui w'))
               <-> In s data
                   /\ Spec.firstNonEmpty [city (address s); town (address s)]
                      <> None)
    /\ showSuggestions (ui w') = true
    /\ Spec.added w w' = [FetchSearch query]
    /\ location (ui w') = location (ui w)
    /\ geoError (ui w') = geoError (ui w)
    /\ suggestionPanel (ui w')
       = map (fun s => match Spec.nonEmpty (state (address s)) with
                       | Some _ => Some s
                       | None => None
                       end)
             (suggestions (ui w')).
Proof.
  intros query data w Hl Hw w'. subst w'.
  apply Nat.ltb_ge in Hl.
  run_on w. unfold encodeURIComponent. rewrite Hl, Hw. run.
  set (kept := filter _ data).
  assert (K : forall s, In s kept
                        <-> In s data
                            /\ Spec.firstNonEmpty
                                 [city (address s); town (address s)]
                               <> None).
  { intros s. subst kept. rewrite filter_In, truthy_firstNonEmpty.
    reflexivity. }
  split; [exact K|]. split; [reflexivity|].
  split; [now apply added_app|]. split; [reflexivity|].
  split; [reflexivity|].
  unfold suggestionPanel. cbn [showSuggestions suggestions andb].
  destruct kept as [|s0 r] eqn:E; [reflexivity|].
  cbn [List.length Nat.ltb Nat.leb]. apply map_ext_in.
  intros s Hs. apply suggestionButton_with_city, K, Hs.
Qed.

Lemma fetchSuggestions_success_witness :
  suggestions (ui (exec (fetchSuggestions (js "Cur")
                           (Response true
                              (Some [Examples.curitiba; Examples.cityOnly])))
                        initialWorld))
  = [Examples.curitiba; Examples.cityOnly]
  /\ suggestionPanel
       (ui (exec (fetchSuggestions (js "Cur")
                    (Response true
                       (Some [Examples.curitiba; Examples.cityOnly])))
                 initialWorld))
     = [Some Examples.curitiba; None].
Proof.
  pose (T := fetchSuggestions_success (js "Cur")
               [Examples.curitiba; Examples.cityOnly] initialWorld).
  assert (H1 : (3 <= List.length (js "Cur"))%nat) by (vm_compute; lia).
  assert (H2 : well_formed (js "Cur") = true) by reflexivity.
  specialize (T H1 H2). cbv zeta in T.
  destruct T as (_ & _ & _ & _ & _ & P).
  split; [reflexivity|]. rewrite P. reflexivity.
Defined.

(** X3. A lookup whose request fails (it is rejected, the status is not OK,
    or the body does not parse) empties the suggestion list and logs the
    error once; the user sees no message: the geolocation error, the input
    text and the panel's open flag stay as they were, the panel, having
    nothing to list, is not rendered, and nothing is passed to
    [onSearch]. *)
Theorem fetchSuggestions_failure_silent :
  forall (query : jsstring) (w : World),
    (3 <= List.length query)%nat ->
    well_formed query = true ->
    let silent o :=
        let w' := exec (fetchSuggestions query o) w in
        suggestions (ui w') = []
        /\ geoError (ui w') = geoError (ui w)
        /\ location (ui w') = location (ui w)
        /\ showSuggestions (ui w') = showSuggestions (ui w)
        /\ suggestionPanel (ui w') = []
        /\ Spec.emitted w w' = []
        /\ List.length (filter isConsoleError (Spec.added w w')) = 1%nat in
    silent NetworkFailure
    /\ (forall body, silent (Response false body))
    /\ silent (Response true None).
Proof.
  intros query w Hl Hw silent. subst silent. cbv beta zeta.
  apply Nat.ltb_ge in Hl.
  assert (A : forall o,
             match o with Response true (Some _) => True | _ =>
               let w' := exec (fetchSuggestions query o) w in
               suggestions (ui w') = []
               /\ geoError (ui w') = geoError (ui w)
               /\ location (ui w') = location (ui w)
               /\ showSuggestions (ui w') = showSuggestions (ui w)
               /\ suggestionPanel (ui w') = []
               /\ Spec.emitted w w' = []
               /\ List.length (filter isConsoleError (Spec.added w w'))
                  = 1%nat
             end).
  { intros o. destruct o as [|[|] [data|]]; try exact I;
      run_on w; unfold encodeURIComponent; rewrite Hl, Hw; run;
      (repeat (split; [reflexivity|]));
      (split; [unfold suggestionPanel; cbn [showSuggestions suggestions];
               rewrite andb_false_r; reflexivity|]);
      (split; [emitted_by_trace|]);
      erewrite added_app
        by (cbn [trace]; rewrite <- ?app_assoc; reflexivity);
      reflexivity. }
  split; [exact (A NetworkFailure)|].
  split; [intros body; exact (A (Response false body))|].
  exact (A (Response true None)).
Qed.

Lemma fetchSuggestions_failure_silent_witness :
  suggestions (ui (exec (fetchSuggestions (js "Curi") NetworkFailure)
                        Examples.openPanel)) = [].
Proof.
  refine (proj1 (proj1 (fetchSuggestions_failure_silent
                          (js "Curi") Examples.openPanel _ _))).
  - vm_compute. lia.
  - reflexivity.
Defined.

(** X4. The suggestion list is the one of the response that settled last:
    a response overwrites what any earlier response left, whichever request
    it answers. *)
Theorem last_response_wins :
  forall (o1 o2 : FetchOutcome (list Suggestion)) (w : World),
    suggestions
      (ui (exec (fetchSuggestions_response o2)
                (exec (fetchSuggestions_response o1) w)))
    = suggestions (ui (exec (fetchSuggestions_response o2) w))
    /\ forall older newer : list Suggestion,
        suggestions
          (ui (exec (fetchSuggestions_response (Response true (Some older)))
                    (exec (fetchSuggestions_response
                             (Response true (Some newer))) w)))
        = filter (fun item => truthy (or (city (address item))
                                         (town (address item)))) older.
Proof.
  intros o1 o2 w. split.
  - destruct o1 as [|[|] [d1|]], o2 as [|[|] [d2|]]; run_on w; reflexivity.
  - intros older newer. run_on w. reflexivity.
Qed.

(** X5. A query of 3 code units or more that holds a lone surrogate is
    never requested: [encodeURIComponent] throws, the error is logged and
    the suggestion list is emptied. *)
Theorem fetchSuggestions_lone_surrogate :
  forall (query : jsstring) (o : FetchOutcome (list Suggestion)) (w : World),
    (3 <= List.length query)%nat ->
    well_formed query = false ->
    let w' := exec (fetchSuggestions query o) w in
    Spec.added w w' = [ConsoleError URIError]
    /\ suggestions (ui w') = []
    /\ showSuggestions (ui w') = showSuggestions (ui w).
Proof.
  intros query o w Hl Hw w'. subst w'. apply Nat.ltb_ge in Hl.
  run_on w. unfold encodeURIComponent. rewrite Hl, Hw. run.
  split; [now apply added_app|]. split; reflexivity.
Qed.

Lemma fetchSuggestions_lone_surrogate_witness :
  Spec.added initialWorld
    (exec (fetchSuggestions (js "Cur" ++ [0xD83C]%N) NetworkFailure)
          initialWorld)
  = [ConsoleError URIError].
Proof.
  refine (proj1 (fetchSuggestions_lone_surrogate
                   (js "Cur" ++ [0xD83C]%N) NetworkFailure initialWorld _ _)).
  - vm_compute. lia.
  - reflexivity.
Defined.

(** ** Closing and reopening the panel *)

(** X6. A mouse press outside the search area clears the panel's open
    flag and changes nothing else: the input text and the suggestion list
    stay, and the panel is no longer rendered.  The panel that was open
    stays mounted while it leaves, and a click on one of its buttons still
    selects: the entry's location string is put in the input and passed to
    [onSearch].  A press inside the area, or before the area is mounted,
    changes nothing. *)
Theorem handleClickOutside_closes :
  forall (w : World),
    let w' := exec (handleClickOutside true false) w in
    showSuggestions (ui w') = false
    /\ location (ui w') = location (ui w)
    /\ suggestions (ui w') = suggestions (ui w)
    /\ trace w' = trace w
    /\ suggestionPanel (ui w') = []
    /\ (forall i s,
           nth_error (suggestionPanel (ui w)) i = Some (Some s) ->
           let l := locationString
                      (or_empty (or (city (address s)) (town (address s))))
                      (or_empty (state (address s))) in
           let w2 := exec (clickSuggestion (ui w) i) w' in
           location (ui w2) = l /\ Spec.emitted w' w2 = [OnSearch l])
    /\ (forall attached, exec (handleClickOutside attached true) w = w)
    /\ (forall inside, exec (handleClickOutside false inside) w = w).
Proof.
  intros w w'.
  split; [subst w'; run_on w; reflexivity|].
  split; [subst w'; run_on w; reflexivity|].
  split; [subst w'; run_on w; reflexivity|].
  split; [subst w'; run_on w; reflexivity|].
  split; [subst w'; run_on w; reflexivity|].
  split; [|split].
  - intros i s H l w2. subst w2. unfold clickSuggestion, exec at 1.
    rewrite H. fold (exec (handleSuggestionClick s) w').
    destruct (handleSuggestionClick_exec s w') as (Hl & _ & Ht & _).
    split; [exact Hl|]. rewrite (emitted_app _ _ _ Ht). reflexivity.
  - intros []; reflexivity.
  - intros []; reflexivity.
Qed.

Lemma handleClickOutside_closes_witness :
  Spec.emitted
    (exec (handleClickOutside true false) Examples.openPanel)
    (exec (clickSuggestion (ui Examples.openPanel) 0)
          (exec (handleClickOutside true false) Examples.openPanel))
  = [OnSearch (js "Curitiba, Paraná, Brasil")].
Proof.
  exact (proj2 (proj1 (proj2 (proj2 (proj2 (proj2 (proj2
           (handleClickOutside_closes Examples.openPanel))))))
           0%nat Examples.curitiba eq_refl)).
Defined.

(** X7. Focusing the input opens the panel exactly when the text has 3 code
    units or more, and never closes it; so with such a text a focus undoes
    a press outside, and after a suggestion was selected a focus shows the
    old suggestions again. *)
Theorem handleFocus_reopens :
  forall (w : World),
    let w' := exec handleFocus w in
    showSuggestions (ui w')
    = ((3 <=? List.length (location (ui w)))%nat || showSuggestions (ui w))
    /\ location (ui w') = location (ui w)
    /\ suggestions (ui w') = suggestions (ui w)
    /\ trace w' = trace w
    /\ ((3 <= List.length (location (ui w)))%nat ->
        showSuggestions (ui w) = true ->
        exec handleFocus (exec (handleClickOutside true false) w) = w)
    /\ (forall s,
           let w2 := exec (handleSuggestionClick s ;; handleFocus) w in
           showSuggestions (ui w2) = true
           /\ suggestions (ui w2) = suggestions (ui w)).
Proof.
  intros w w'. subst w'.
  split; [|split; [|split; [|split; [|split]]]].
  - run_on w. unfold handleFocus. run.
    destruct (3 <=? List.length location0)%nat; reflexivity.
  - run_on w. unfold handleFocus. run.
    destruct (3 <=? List.length location0)%nat; reflexivity.
  - run_on w. unfold handleFocus. run.
    destruct (3 <=? List.length location0)%nat; reflexivity.
  - run_on w. unfold handleFocus. run.
    destruct (3 <=? List.length location0)%nat; reflexivity.
  - intros Hl Hs. apply Nat.leb_le in Hl.
    destruct w as [[l s g gl sh st] n tm nx tr].
    cbn [ui location showSuggestions] in *. subst sh.
    unfold handleFocus, handleClickOutside. cbn [andb negb]. run.
    rewrite Hl. reflexivity.
  - intros s.
    assert (L : (3 <=? List.length
                         (locationString
                            (or_empty (or (city (address s))
                                          (town (address s))))
                            (or_empty (state (address s)))))%nat = true).
    { apply Nat.leb_le. unfold locationString. rewrite !length_app.
      change (List.length (js ", Brasil")) with 8%nat. lia. }
    run_on w. unfold handleFocus. run. rewrite L. split; reflexivity.
Qed.

Lemma handleFocus_reopens_witness :
  exec handleFocus (exec (handleClickOutside true false) Examples.openPanel)
  = Examples.openPanel.
Proof.
  refine (proj1 (proj2 (proj2 (proj2 (proj2
            (handleFocus_reopens Examples.openPanel))))) _ eq_refl).
  vm_compute. lia.
Defined.

(** ** After a location was resolved *)

Lemma locationString_not_blank (c st : jsstring) :
  forallb is_white_space (locationString c st) = false.
Proof.
  unfold locationString. rewrite forallb_app.
  destruct (forallb is_white_space c); [|reflexivity].
  cbn [andb]. rewrite forallb_app. reflexivity.
Qed.

(** X8. The string put in the input by a selection is never blank, so
    submitting the form right after selecting a suggestion searches the
    same location once more. *)
Theorem select_then_submit :
  forall (s : Suggestion) (w : World),
    let l := locationString
               (or_empty (or (city (address s)) (town (address s))))
               (or_empty (state (address s))) in
    let w' := exec (handleSuggestionClick s ;; handleSubmit) w in
    Spec.added w w' = [OnSearch l; OnSearch l]
    /\ location (ui w') = l.
Proof.
  intros s w l w'.
  assert (E : w' = exec handleSubmit (exec (handleSuggestionClick s) w)).
  { subst w'. apply exec_seq. run_on w. reflexivity. }
  destruct (handleSuggestionClick_exec s w) as (Hl & _ & Ht & _).
  fold l in Hl, Ht.
  destruct (handleSubmit_exec (exec (handleSuggestionClick s) w))
    as [Hu Ha].
  rewrite Hl in Ha. unfold l in Ha at 1.
  rewrite locationString_not_blank in Ha. fold l in Ha.
  rewrite E. split.
  - apply added_app. rewrite Ha, Ht, <- app_assoc. reflexivity.
  - rewrite Hu. exact Hl.
Qed.

(** ** The geolocation flow, as a whole *)

Ltac by_trace :=
  cbn [trace]; rewrite <- ?app_assoc;
  first [reflexivity | symmetry; apply app_nil_r].

(** X9. A run of the geolocation flow touches neither the suggestions, the
    panel nor the timers.  Without [navigator.geolocation] it does nothing
    to the outside and ends with "Seu navegador não suporta geolocalização";
    otherwise it asks for the position once (high accuracy, 5000 ms timeout,
    no cached position), asks for the reverse geocoding only when a position
    came back, with its coordinates, and calls [onSearch] at most once, with
    the text it has put in the input. *)
Theorem getCurrentLocation_effects :
  forall (hasGeolocation : bool) (p : PositionResult)
         (o : FetchOutcome Reverse.Data) (w : World),
    let w' := exec (getCurrentLocation hasGeolocation p o) w in
    suggestions (ui w') = suggestions (ui w)
    /\ showSuggestions (ui w') = showSuggestions (ui w)
    /\ searchTimeout (ui w') = searchTimeout (ui w)
    /\ timers w' = timers w
    /\ match hasGeolocation, p with
       | false, _ =>
         Spec.added w w' = []
         /\ geoError (ui w') = Some Spec.notSupported
         /\ location (ui w') = location (ui w)
       | true, PositionError _ =>
         Spec.added w w' = [GetCurrentPosition true 5000 0]
         /\ location (ui w') = location (ui w)
       | true, Position latitude longitude =>
         (Spec.added w w' = [GetCurrentPosition true 5000 0;
                             FetchReverse latitude longitude]
          /\ location (ui w') = location (ui w))
         \/ (Spec.added w w' = [GetCurrentPosition true 5000 0;
                                FetchReverse latitude longitude;
                                OnSearch (location (ui w'))]
             /\ geoError (ui w') = None)
       end.
Proof.
  intros hasGeolocation p o w w'. subst w'.
  destruct hasGeolocation.
  - geo_cases p o w; (repeat (split; [reflexivity|]));
      first
        [ split; [apply added_app; by_trace | reflexivity]
        | left; split; [apply added_app; by_trace | reflexivity]
        | right; split; [apply added_app; by_trace | reflexivity] ].
  - run_on w. repeat (split; [reflexivity|]).
    split; [apply added_app; by_trace|]. split; [same | reflexivity].
Qed.

(** X10. Each run of the geolocation flow starts afresh: the message and
    the busy flag it ends with do not depend on the message or the flag it
    found, so a run that succeeds after a failed one leaves no error. *)
Theorem getCurrentLocation_reentrant :
  forall (hasGeolocation : bool) (p : PositionResult)
         (o : FetchOutcome Reverse.Data) (w w0 : World),
    geoError (ui (exec (getCurrentLocation hasGeolocation p o) w))
    = geoError (ui (exec (getCurrentLocation hasGeolocation p o) w0))
    /\ forall (p' : PositionResult) (o' : FetchOutcome Reverse.Data)
              (hasGeolocation' : bool),
        geoError
          (ui (exec (getCurrentLocation hasGeolocation p o)
                    (exec (getCurrentLocation hasGeolocation' p' o') w)))
        = geoError (ui (exec (getCurrentLocation hasGeolocation p o) w)).
Proof.
  assert (A : forall hasGeolocation p o w w0,
             geoError (ui (exec (getCurrentLocation hasGeolocation p o) w))
             = geoError
                 (ui (exec (getCurrentLocation hasGeolocation p o) w0))).
  { intros hasGeolocation p o w w0.
    destruct hasGeolocation;
      [|destruct w0 as [[? ? ? ? ? ?] ? ? ? ?]; run_on w; reflexivity].
    destruct w0 as [[? ? ? ? ? ?] ? ? ? ?].
    geo_cases p o w; reflexivity. }
  intros hasGeolocation p o w w0. split; [apply A|].
  intros p' o' hasGeolocation'. apply A.
Qed.

(** ** The debounce timer over a whole session *)

(** With one timer pending, the passing of time either leaves everything
    but the clock as it was, or runs the lookup and leaves no timer. *)
Lemma wait_single (t : Timer) (ms : Z) (w : World) :
  timers w = [t] ->
  let w' := exec (wait ms) w in
  fst (wait ms w) = Ok tt
  /\ searchTimeout (ui w') = searchTimeout (ui w)
  /\ now w' = Z.max (now w) (now w + ms)
  /\ ((deadline t <=? now w + ms)%Z = false
      /\ timers w' = [t] /\ trace w' = trace w /\ ui w' = ui w
      \/ (deadline t <=? now w + ms)%Z = true
         /\ timers w' = []
         /\ trace w' = trace w
                       ++ Lookup (Z.max (now w) (deadline t)) (value t)
                          :: requestEffects (value t)).
Proof.
  destruct w as [[l s g gl sh st] n tm nx tr]. cbn [timers now ui trace].
  intros ->. destruct t as [id d v]. cbn [deadline value].
  timer_run.
  destruct (d <=? n + ms)%Z eqn:E; timer_run.
  - unfold requestEffects.
    destruct (List.length v <? 3)%nat; timer_run;
      [repeat split; right; repeat split|].
    destruct (encodeURIComponent v); timer_run;
      (repeat split; right; repeat split; by_trace).
  - repeat split. left. repeat split.
Qed.

Lemma wait_none (ms : Z) (w : World) :
  timers w = [] ->
  let w' := exec (wait ms) w in
  fst (wait ms w) = Ok tt
  /\ ui w' = ui w /\ timers w' = [] /\ trace w' = trace w
  /\ now w' = Z.max (now w) (now w + ms).
Proof.
  destruct w as [[l s g gl sh st] n tm nx tr]. cbn [timers now ui trace].
  intros ->. timer_run. repeat split.
Qed.

(** X11. An input change 300 ms or more after the previous one does not
    cancel the previous lookup: that lookup has run, at its own deadline and
    for its own text, before the new one is scheduled. *)
Theorem spaced_input_changes_both_looked_up :
  forall (w : World) (v : jsstring) (k : Z * jsstring),
    pending w (now w + 300) v ->
    (300 <= fst k)%Z ->
    let w' := exec (typeAfter k) w in
    Spec.added w w' = Lookup (now w + 300) v :: requestEffects v
    /\ pending w' (now w + fst k + 300) (snd k)
    /\ location (ui w') = snd k.
Proof.
  intros w v k Hp Hk w'.
  destruct Hp as (id & Ht & Hs).
  destruct (wait_single _ (fst k) w Ht) as (Ho & Hst & Hn & [C|C]);
    cbn [deadline value] in C.
  - destruct C as [C _]. apply Z.leb_gt in C. lia.
  - destruct C as (_ & Htm & Htr).
    set (w0 := exec (wait (fst k)) w) in *.
    assert (Hok : timers_ok w0) by (unfold timers_ok; rewrite Htm; constructor).
    destruct (handleInputChange_pending (snd k) w0 Hok)
      as (Hp1 & Ht1 & Hn1 & Hl1 & _).
    assert (E : w' = exec (handleInputChange (snd k)) w0).
    { subst w' w0. unfold typeAfter. apply exec_seq. exact Ho. }
    rewrite E. split; [|split; [|exact Hl1]].
    + apply added_app. rewrite Ht1, Htr.
      replace (Z.max (now w) (now w + 300)) with (now w + 300)%Z by lia.
      reflexivity.
    + replace (now w + fst k)%Z with (now w0) by lia. exact Hp1.
Qed.

Lemma spaced_input_changes_both_looked_up_witness :
  Spec.added (exec (handleInputChange (js "Curi")) initialWorld)
    (exec (typeAfter (450%Z, js "Curit"))
          (exec (handleInputChange (js "Curi")) initialWorld))
  = [Lookup 300 (js "Curi"); FetchSearch (js "Curi")].
Proof.
  refine (proj1 (spaced_input_changes_both_looked_up
                   (exec (handleInputChange (js "Curi")) initialWorld)
                   (js "Curi") (450%Z, js "Curit") _ _)).
  - exists 1%positive. split; reflexivity.
  - cbn. lia.
Defined.

Ltac quiet_done :=
  unfold quiet; cbn [timers ui searchTimeout];
  split; [split; [reflexivity|split; [reflexivity|]] | reflexivity];
  eexists; (split; [by_trace | split; reflexivity]).

(** Only input changes and the passing of time touch the timers or look
    suggestions up. *)
Lemma step_quiet (e : Event) (w : World) :
  match e with
  | InputChange _ | Elapse _ => True
  | _ => quiet w (exec (step e) w) /\ fst (step e w) = Ok tt
  end.
Proof.
  destruct e as [v|ms|o|leaving i| |inside| |hasGeolocation p o];
    try exact I; cbn [step].
  - destruct o as [|[|] [data|]]; run_on w; quiet_done.
  - destruct leaving as [rendered|]; run_on w;
      match goal with
      | |- context [nth_error ?l i] => destruct (nth_error l i) as [[s|]|]
      end; run; quiet_done.
  - run_on w. destruct (trim _); run; quiet_done.
  - destruct inside; run_on w; unfold handleClickOutside; cbn [andb negb];
      run; quiet_done.
  - run_on w. unfold handleFocus. run.
    destruct (3 <=? _)%nat; run; quiet_done.
  - destruct hasGeolocation; [geo_cases p o w | run_on w]; quiet_done.
Qed.

Lemma quiet_bounded (k : nat) (w w' : World) :
  quiet w w' -> bounded k w -> bounded k w'.
Proof.
  intros (Ht & Hs & new & Htr & Hl & Hf) (B1 & B2 & B3 & B4).
  unfold bounded, timers_ok, lookupsOf, requestsOf in *.
  rewrite Ht, Hs, Htr, !filter_app, Hl, Hf, !app_nil_r. auto.
Qed.

Lemma step_bounded (e : Event) (k : nat) (w : World) :
  bounded k w ->
  bounded (k + if isInputChange e then 1 else 0) (exec (step e) w)
  /\ fst (step e w) = Ok tt.
Proof.
  intros B.
  pose proof (step_quiet e w) as Q.
  destruct e as [v|ms|o|leaving i| |inside| |hasGeolocation p o];
    cbn [isInputChange];
    try (split; [|exact (proj2 Q)];
         rewrite Nat.add_0_r; exact (quiet_bounded _ _ _ (proj1 Q) B)).
  - clear Q. destruct B as (B1 & B2 & B3 & B4). cbn [step].
    destruct (handleInputChange_pending v w B1) as (Hp & Ht & _ & _ & Hok).
    split; [|exact Hok].
    pose proof (pending_timers_ok _ _ _ Hp) as Hok'.
    destruct Hp as (id & Htm & _).
    unfold bounded, lookupsOf, requestsOf in *. rewrite Htm, Ht.
    cbn [List.length]. repeat split; [exact Hok' | lia..].
  - clear Q. destruct B as (B1 & B2 & B3 & B4). cbn [step].
    rewrite Nat.add_0_r.
    unfold bounded, timers_ok, lookupsOf, requestsOf in *.
    destruct (timers w) as [|t [|u r]] eqn:Htm; [| |cbn in B2; lia].
    + destruct (wait_none ms w Htm) as (Hok & Hu & Ht' & Htr & _).
      split; [|exact Hok].
      rewrite Ht', Htr. cbn [List.length] in *.
      repeat split; [constructor | lia..].
    + destruct (wait_single t ms w Htm) as (Hok & Hs & _ & [C|C]);
        (split; [|exact Hok]).
      * destruct C as (_ & Ht' & Htr & Hu).
        rewrite Ht', Htr, Hu. cbn [List.length] in *.
        repeat split; [exact B1 | lia..].
      * destruct C as (_ & Ht' & Htr).
        destruct (requestEffects_lookups (value t)) as [R1 R2].
        rewrite Ht', Htr, !filter_app. cbn [filter isLookup isFetchSearch].
        rewrite R1, !length_app. cbn [List.length] in *.
        repeat split; [constructor | lia..].
Qed.

Lemma steps_bounded (es : list Event) :
  forall (k : nat) (w : World),
    bounded k w ->
    bounded (k + List.length (filter isInputChange es)) (exec (steps es) w).
Proof.
  induction es as [|e r IH]; intros k w B.
  - cbn. rewrite Nat.add_0_r. exact B.
  - destruct (step_bounded e k w B) as [B' Hok].
    cbn [steps]. rewrite exec_seq by exact Hok.
    specialize (IH _ _ B'). cbn [filter].
    destruct (isInputChange e); cbn [List.length];
      [rewrite <- Nat.add_assoc in IH; exact IH|].
    rewrite Nat.add_0_r in IH. exact IH.
Qed.

(** X12. Whatever the user does and however requests settle, from the
    mounting of the component on: at most one lookup is scheduled at any
    time; the lookups that have run, together with the one scheduled, are
    never more than the input changes so far; and every suggestion request
    comes from a lookup, so there are never more requests than input
    changes. *)
Theorem lookups_bounded_by_input_changes :
  forall (es : list Event),
    let w := exec (steps es) initialWorld in
    (List.length (timers w) <= 1)%nat
    /\ timers_ok w
    /\ (lookupsOf w + List.length (timers w)
        <= List.length (filter isInputChange es))%nat
    /\ (requestsOf w <= lookupsOf w)%nat
    /\ (requestsOf w <= List.length (filter isInputChange es))%nat.
Proof.
  intros es w.
  assert (B0 : bounded 0 initialWorld).
  { unfold bounded, timers_ok, lookupsOf, requestsOf. cbn.
    repeat split; [constructor | lia..]. }
  destruct (steps_bounded es 0 initialWorld B0) as (B1 & B2 & B3 & B4).
  fold w in B1, B2, B3, B4. cbn [Nat.add] in B3.
  repeat split; [exact B2 | exact B1 | exact B3 | exact B4 | lia].
Qed.

(** * Further properties of the page *)

(** [fetchWeatherData] is its part before the [await] followed, when a
    request is in flight, by its part after. *)
Lemma fetchWeatherData_split
    (location : jsstring) (o : FetchOutcome Page.Raw.Data) (w : Page.World) :
  Page.fetchWeatherData location o w
  = (inFlight <- Page.fetchWeatherData_request location ;;
     if inFlight : bool then Page.fetchWeatherData_response o else ret tt) w.
Proof.
  unfold Page.fetchWeatherData_request, Page.fetchWeatherData_response,
    Page.fetchWeatherData_catch.
  page_run_on w.
  destruct (encodeURIComponent location); page_run; [reflexivity|].
  destruct o as [|[|] [data|]]; page_run; reflexivity.
Qed.

(** What a run adds to the page's effects: the request, if the location
    can be encoded, and the logged error, if the run fails. *)
Lemma fetchWeatherData_trace
    (location : jsstring) (o : FetchOutcome Page.Raw.Data) (w : Page.World) :
  exists new,
    Page.trace (exec (Page.fetchWeatherData location o) w)
    = Page.trace w ++ new
    /\ filter Page.isFetchWeather new
       = if well_formed location then [Page.FetchWeather location] else [].
Proof.
  page_run_on w. unfold encodeURIComponent.
  destruct (well_formed location); page_run;
    [|eexists; split; reflexivity].
  destruct o as [|[|] [data|]]; page_run;
    try (eexists; split; [rewrite <- app_assoc; reflexivity | reflexivity]).
  destruct (Page.Raw.currentConditions data) as [cc|];
    [destruct (Page.Raw.days data) as [[|[[hours|]] ?]|]|];
    page_run;
    eexists; (split; [rewrite <- ?app_assoc; reflexivity | reflexivity]).
Qed.

(** X13. Fetching the same location twice, with the same answer, makes two
    requests and leaves the page in the state the first fetch left it in.
    After a successful fetch that state is the same whatever the page held
    before: the snapshot is replaced as a whole and the error is gone. *)
Theorem weather_fetch_twice :
  forall (location : jsstring) (o : FetchOutcome Page.Raw.Data)
         (w : Page.World),
    let w1 := exec (Page.fetchWeatherData location o) w in
    let w2 := exec (Page.fetchWeatherData location o) w1 in
    Page.ui w2 = Page.ui w1
    /\ (well_formed location = true ->
        filter Page.isFetchWeather
               (skipn (List.length (Page.trace w)) (Page.trace w2))
        = [Page.FetchWeather location; Page.FetchWeather location])
    /\ (Page.error (Page.ui w1) = None ->
        forall w0,
          Page.ui (exec (Page.fetchWeatherData location o) w0) = Page.ui w1).
Proof.
  intros location o w w1 w2. subst w1 w2.
  split; [|split].
  - page_run_on w. unfold encodeURIComponent.
    destruct (well_formed location); page_run; [|reflexivity].
    destruct o as [|[|] [data|]]; page_run; try reflexivity.
    destruct (Page.Raw.currentConditions data) as [cc|];
      [destruct (Page.Raw.days data) as [[|[[hours|]] ?]|]|];
      page_run; reflexivity.
  - intros Hw.
    destruct (fetchWeatherData_trace location o w) as (n1 & T1 & F1).
    destruct (fetchWeatherData_trace location o
                (exec (Page.fetchWeatherData location o) w))
      as (n2 & T2 & F2).
    rewrite Hw in F1, F2. rewrite T2, T1, <- app_assoc.
    rewrite skipn_app, skipn_all, Nat.sub_diag. cbn [skipn app].
    rewrite filter_app, F1, F2. reflexivity.
  - intros H w0. destruct w0 as [[? ? ?] ?]. revert H.
    page_run_on w. unfold encodeURIComponent.
    destruct (well_formed location); page_run; [|discriminate].
    destruct o as [|[|] [data|]]; page_run; try discriminate.
    destruct (Page.Raw.currentConditions data) as [cc|];
      [destruct (Page.Raw.days data) as [[|[[hours|]] ?]|]|];
      page_run; try discriminate.
    reflexivity.
Qed.

Lemma weather_fetch_twice_witness :
  filter Page.isFetchWeather
    (Page.trace
       (exec (Page.fetchWeatherData (js "Lapa") (Response false None))
             (exec (Page.fetchWeatherData (js "Lapa") (Response false None))
                   Examples.emptyPage)))
  = [Page.FetchWeather (js "Lapa"); Page.FetchWeather (js "Lapa")].
Proof.
  exact (proj1 (proj2 (weather_fetch_twice (js "Lapa") (Response false None)
                         Examples.emptyPage)) eq_refl).
Defined.

(** X14. A location that holds a lone surrogate is never requested:
    [encodeURIComponent] throws before [fetch] is called, and the run ends
    like any failed fetch, with the error message, [loading] false and the
    snapshot untouched. *)
Theorem weather_fetch_lone_surrogate :
  forall (location : jsstring) (o : FetchOutcome Page.Raw.Data)
         (w : Page.World),
    well_formed location = false ->
    let w' := exec (Page.fetchWeatherData location o) w in
    Page.trace w' = Page.trace w ++ [Page.ConsoleError URIError]
    /\ Page.error (Page.ui w') = Some Spec.weatherError
    /\ Page.loading (Page.ui w') = false
    /\ Page.weather (Page.ui w') = Page.weather (Page.ui w).
Proof.
  intros location o w H w'. subst w'.
  page_run_on w. unfold encodeURIComponent. rewrite H. page_run.
  split; [reflexivity|]. split; [same|]. split; reflexivity.
Qed.

Lemma weather_fetch_lone_surrogate_witness :
  Page.trace (exec (Page.fetchWeatherData (js "Lapa" ++ [0xDC00]%N)
                      (Response true (Some Examples.longDay)))
                   Examples.emptyPage)
  = [Page.ConsoleError URIError].
Proof.
  exact (proj1 (weather_fetch_lone_surrogate
                  (js "Lapa" ++ [0xDC00]%N)
                  (Response true (Some Examples.longDay))
                  Examples.emptyPage eq_refl)).
Defined.

(** ** What the page shows *)

Lemma firstField_no_colon (s : jsstring) :
  ~ In 58%N s -> Page.firstField s = s.
Proof.
  induction s as [|c r IH]; cbn [Page.firstField In]; intros H;
    [reflexivity|].
  destruct (c =? 58)%N eqn:E.
  - apply N.eqb_eq in E. exfalso. apply H. left. exact E.
  - rewrite IH; [reflexivity|]. intros F. apply H. right. exact F.
Qed.

Lemma firstField_app (s t : jsstring) :
  ~ In 58%N s -> Page.firstField (s ++ 58%N :: t) = s.
Proof.
  induction s as [|c r IH]; cbn [Page.firstField In app]; intros H;
    [reflexivity|].
  destruct (c =? 58)%N eqn:E.
  - apply N.eqb_eq in E. exfalso. apply H. left. exact E.
  - rewrite IH; [reflexivity|]. intros F. apply H. right. exact F.
Qed.

Lemma firstField_colon_free (s : jsstring) :
  ~ In 58%N (Page.firstField s).
Proof.
  induction s as [|c r IH]; cbn [Page.firstField]; [intros []|].
  destruct (c =? 58)%N eqn:E; [intros []|].
  intros [F|F]; [|exact (IH F)].
  apply N.eqb_neq in E. congruence.
Qed.

(** X15. The hour label of a forecast entry is the text before the first
    colon of its [datetime], followed by ":00"; when [datetime] has no colon
    it is all of [datetime] followed by ":00".  Formatting a label again
    gives the same label. *)
Theorem formatHour_label :
  (forall (hour rest : jsstring),
      ~ In 58%N hour ->
      Page.formatHour (hour ++ js ":" ++ rest) = hour ++ js ":00")
  /\ (forall (datetime : jsstring),
         ~ In 58%N datetime ->
         Page.formatHour datetime = datetime ++ js ":00")
  /\ (forall (datetime : jsstring),
         Page.formatHour (Page.formatHour datetime)
         = Page.formatHour datetime).
Proof.
  unfold Page.formatHour. split; [|split].
  - intros hour rest H. change (js ":" ++ rest) with (58%N :: rest).
    now rewrite firstField_app.
  - intros datetime H. now rewrite firstField_no_colon.
  - intros datetime. change (js ":00") with (58%N :: js "00").
    rewrite firstField_app; [reflexivity|]. apply firstField_colon_free.
Qed.

Lemma formatHour_label_witness :
  Page.formatHour (js "13:00:00") = js "13:00".
Proof.
  refine (proj1 formatHour_label (js "13") (js "00:00") _).
  vm_compute. intros [F|[F|[]]]; discriminate F.
Defined.





(** A successful fetch whose response has an hourly entry without
    [datetime] stores the snapshot, and the render of it throws. *)
Example undated_hour_breaks_render :
  let st := Page.ui (exec (Page.fetchWeatherData (js "Lapa")
                             (Response true (Some Examples.undatedHour)))
                          Examples.emptyPage) in
  Page.error st = None /\ Page.views st = Throw TypeError.
Proof. vm_compute. split; reflexivity. Qed.
